(** * analyze_coverage.py: an LCOV line-coverage summariser

    A shallow embedding of [src/analyze_coverage.py] (functions
    [parse_lcov], [print_report] and the command-line entry point) and
    the properties its specification states about it.

    Conventions of the embedding:
    - a Python [str] is a [string]; a character stands for the code
      point of the same number (0 to 255);
    - a Python [int] is a [Z]; a Python [float] is a binary64 value of
      [SpecFloat] (precision 53, [emax] 1024);
    - the [dict] built by [parse_lcov] keeps insertion order, so it is
      an association list with at most one binding per key;
    - exceptions, [sys.exit] and [print] are explicit: a computation
      returns a [result], and the printing ones thread the lines written
      to standard output;
    - the calls to the operating system ([os.path.isabs],
      [os.path.relpath], [open] and the reading of the file) are the
      fields of a class [OS], exceptions included; a [Host] is an
      operating system in its regular condition, where [relpath] fails
      by [ValueError] only and a file that opens is read to its end;
    - an [int] is written out in full whatever its size: the limit of
      4300 digits that CPython puts on the conversion of an [int] to
      text (a [ValueError] beyond it) is not part of [str_of_int], so
      the report is that of counts below [10^4300]. *)

From Stdlib Require Import ZArith String Ascii List Lia Bool.
From Stdlib Require Import Floats.SpecFloat.
From Stdlib Require Import Numbers.DecimalString.
From stdpp Require Import base list sorting strings.

Local Open Scope string_scope.
Local Open Scope Z_scope.

(** ** Python built-ins on strings *)

Module Py.

(** [str.isspace] on one character, which is what [str.strip()]
    removes: TAB..CR, FS..US, space, NEL and NBSP. *)
Definition is_space (c : ascii) : bool :=
  let n := N_of_ascii c in
  ((9 <=? n) && (n <=? 13) || (28 <=? n) && (n <=? 32)
   || (n =? 133) || (n =? 160))%N.

Fixpoint lstrip (s : string) : string :=
  match s with
  | String c s' => if is_space c then lstrip s' else s
  | EmptyString => EmptyString
  end.

Fixpoint rstrip (s : string) : string :=
  match s with
  | EmptyString => EmptyString
  | String c s' =>
      match rstrip s' with
      | EmptyString => if is_space c then EmptyString else String c EmptyString
      | r => String c r
      end
  end.

(** [s.strip()] *)
Definition strip (s : string) : string := rstrip (lstrip s).

(** [s.startswith(p)] *)
Definition startswith (s p : string) : bool := String.prefix p s.

(** [s[n:]] for [n >= 0] *)
Fixpoint slice_from (n : nat) (s : string) : string :=
  match n, s with
  | O, _ => s
  | S n', String _ s' => slice_from n' s'
  | S _, EmptyString => EmptyString
  end.

(** [s.split(sep)] for a one-character separator: never empty. *)
Fixpoint split (sep : ascii) (s : string) : list string :=
  match s with
  | EmptyString => [EmptyString]
  | String c s' =>
      if Ascii.eqb c sep then EmptyString :: split sep s'
      else match split sep s' with
           | h :: t => String c h :: t
           | [] => [String c EmptyString]
           end
  end.

(** *** [int(s)] for a [str] argument, base 10

    CPython first maps every white-space character above the ASCII
    range to a space, leaving ASCII characters as they are; the
    grammar is then: white space (TAB..CR, space), an optional sign,
    decimal digits with single underscores between them, white space.
    The only decimal digits below code point 256 are ["0"] to ["9"]. *)

Definition int_space (c : ascii) : bool :=
  let n := N_of_ascii c in
  ((9 <=? n) && (n <=? 13) || (n =? 32) || (n =? 133) || (n =? 160))%N.

Definition digit_value (c : ascii) : option Z :=
  let n := N_of_ascii c in
  if ((48 <=? n) && (n <=? 57))%N then Some (Z.of_N n - 48) else None.

Fixpoint skip_int_space (s : string) : string :=
  match s with
  | String c s' => if int_space c then skip_int_space s' else s
  | EmptyString => EmptyString
  end.

(** [sys.get_int_max_str_digits()], at its default. *)
Definition int_max_str_digits : nat := 4300.

(** The digit scan: [prev_us] tells whether the previous character
    was an underscore, [acc] is the value read so far and [n] the
    number of digits read.  Returns the value, the digit count and
    the unread rest. *)
Fixpoint scan_digits (prev_us : bool) (acc : Z) (n : nat) (s : string)
  : option (Z * nat * string) :=
  match s with
  | String c s' =>
      if Ascii.eqb c "_" then
        if prev_us then None else scan_digits true acc n s'
      else
        match digit_value c with
        | Some d => scan_digits false (acc * 10 + d) (S n) s'
        | None => if prev_us then None else Some (acc, n, s)
        end
  | EmptyString => if prev_us then None else Some (acc, n, s)
  end.

(** [None] stands for [ValueError]. *)
Definition int (s : string) : option Z :=
  let s1 := skip_int_space s in
  let '(neg, s2) :=
    match s1 with
    | String "+" r => (false, r)
    | String "-" r => (true, r)
    | _ => (false, s1)
    end in
  match s2 with
  | String "_" _ => None
  | _ =>
      match scan_digits false 0 O s2 with
      | Some (v, n, rest) =>
          match n, skip_int_space rest with
          | O, _ => None
          | _, EmptyString =>
              if (int_max_str_digits <? n)%nat then None
              else Some (if neg then - v else v)
          | _, _ => None
          end
      | None => None
      end
  end.

End Py.

(** ** Exceptions

    [SystemExit] is what [sys.exit] raises.  [UnicodeDecodeError] is a
    subclass of [ValueError]; the other classes are unrelated to one
    another as far as the handlers of the program go. *)

Inductive exn :=
| ValueError
| UnicodeDecodeError
| KeyError
| IndexError
| ZeroDivisionError
| OverflowError
| FileNotFoundError
| PermissionError
| IsADirectoryError
| SystemExit (code : Z).

Inductive result (A : Type) :=
| Ret (a : A)
| Raise (e : exn).
Arguments Ret {A} a.
Arguments Raise {A} e.

(** ** Python numbers and their formatting *)

Module PyNum.

Definition float := spec_float.
Definition prec : Z := 53.
Definition emax : Z := 1024.

(** The value bound to [percent]: a [float], or the [int] of the
    [else] branch. *)
Inductive num :=
| Int (z : Z)
| Float (f : float).

(** [float(z)]: the nearest binary64 value, ties to even. *)
Definition float_of_int (z : Z) : result float :=
  match binary_normalize prec emax z 0 false with
  | S754_infinity _ => Raise OverflowError
  | f => Ret f
  end.

(** [a / b] on two [int]s: the correctly rounded quotient. *)
Definition truediv (a b : Z) : result float :=
  if b =? 0 then Raise ZeroDivisionError
  else if a =? 0 then Ret (S754_zero (b <? 0))
  else
    match SFdiv prec emax (S754_finite (a <? 0) (Z.to_pos (Z.abs a)) 0)
                          (S754_finite (b <? 0) (Z.to_pos (Z.abs b)) 0) with
    | S754_infinity _ => Raise OverflowError
    | q => Ret q
    end.

(** [x * k] for a [float] [x] and an [int] [k]. *)
Definition mul_int (x : float) (k : Z) : result float :=
  match float_of_int k with
  | Ret fk => Ret (SFmul prec emax x fk)
  | Raise e => Raise e
  end.

(** [str(z)], for [z] of at most 4300 digits (larger ones are written
    out all the same, where CPython raises [ValueError]). *)
Definition str_of_int (z : Z) : string := NilZero.string_of_int (Z.to_int z).

Fixpoint spaces (n : nat) : string :=
  match n with
  | O => EmptyString
  | S n' => String " " (spaces n')
  end.

(** [f"{s:<w}"] and [f"{s:>w}"]: pad, never truncate. *)
Definition ljust (w : nat) (s : string) : string :=
  s ++ spaces (w - String.length s).
Definition rjust (w : nat) (s : string) : string :=
  spaces (w - String.length s) ++ s.

(** The integer nearest to [m * 2^e * 100], ties to even. *)
Definition round_hundredths (m : positive) (e : Z) : Z :=
  if 0 <=? e then Z.pos m * 2 ^ e * 100
  else
    let d := 2 ^ (- e) in
    let num := Z.pos m * 100 in
    let q := num / d in
    match (2 * (num mod d) ?= d) with
    | Lt => q
    | Eq => if Z.even q then q else q + 1
    | Gt => q + 1
    end.

Definition two_digits (n : Z) : string :=
  (if n <? 10 then "0" else "") ++ str_of_int n.

(** [f"{x:.2f}"] for a [float] *)
Definition fixed2 (x : float) : string :=
  match x with
  | S754_nan => "nan"
  | S754_infinity s => (if s then "-" else "") ++ "inf"
  | S754_zero s => (if s then "-" else "") ++ "0.00"
  | S754_finite s m e =>
      let n := round_hundredths m e in
      (if s then "-" else "") ++ str_of_int (n / 100) ++ "." ++ two_digits (n mod 100)
  end.

(** [f"{x:6.2f}"]; an [int] is converted to [float] first. *)
Definition format_6_2f (x : num) : result string :=
  match x with
  | Float f => Ret (rjust 6 (fixed2 f))
  | Int z =>
      match float_of_int z with
      | Ret f => Ret (rjust 6 (fixed2 f))
      | Raise e => Raise e
      end
  end.

End PyNum.

(** ** Computations that may raise *)

#[global] Instance result_ret : MRet result := @Ret.
#[global] Instance result_bind : MBind result :=
  fun A B (f : A -> result B) (m : result A) =>
    match m with
    | Ret a => f a
    | Raise e => Raise e
    end.

#[global] Instance result_fmap : FMap result :=
  fun A B (f : A -> B) (m : result A) =>
    match m with
    | Ret a => Ret (f a)
    | Raise e => Raise e
    end.

(** [int(s)], raising [ValueError]. *)
Definition py_int (s : string) : result Z :=
  match Py.int s with
  | Some z => Ret z
  | None => Raise ValueError
  end.

(** [l[i]], raising [IndexError]. *)
Definition py_index {A : Type} (l : list A) (i : nat) : result A :=
  match l !! i with
  | Some x => Ret x
  | None => Raise IndexError
  end.

(** ** The [dict]: an insertion-ordered association list *)

Module Dict.
Section dict.
Context {V : Type}.

Definition t : Type := list (string * V).

Definition empty : t := [].

Fixpoint get (k : string) (d : t) : option V :=
  match d with
  | [] => None
  | (k', v) :: d' => if String.eqb k k' then Some v else get k d'
  end.

(** [k in d] *)
Definition mem (k : string) (d : t) : bool :=
  match get k d with
  | Some _ => true
  | None => false
  end.

(** [d[k] = v]: an existing key keeps its place, a new one goes last. *)
Fixpoint set (k : string) (v : V) (d : t) : t :=
  match d with
  | [] => [(k, v)]
  | (k', v') :: d' =>
      if String.eqb k k' then (k, v) :: d' else (k', v') :: set k v d'
  end.

(** [d[k]], raising [KeyError]. *)
Definition getitem (k : string) (d : t) : result V :=
  match get k d with
  | Some v => Ret v
  | None => Raise KeyError
  end.

(** [d.keys()], in insertion order. *)
Definition keys (d : t) : list string := map fst d.

(** What a [dict] guarantees: one binding per key. *)
Definition wf (d : t) : Prop := NoDup (keys d).
End dict.
Arguments t : clear implicits.
End Dict.

(** ** The coverage table *)

(** [{'total': t, 'covered': c}] *)
Record stats := { total : Z; covered : Z }.

Abbreviation table := (Dict.t stats).

(** ** The operating system: [os.path] and the file system

    [os_isabs] and [os_relpath] are [os.path.isabs] and
    [os.path.relpath] with the current directory as start.  The latter
    may raise: [ValueError] (on Windows, a path on another drive), or
    the [OSError] of [os.getcwd()], which is [FileNotFoundError] when
    the working directory has been removed.  [os_open p] is
    [open(p, 'r')] and the iteration over the file: the lines it yields
    and, when it does not reach the end of the file, the exception that
    stops it ([UnicodeDecodeError] on bytes that are no text, an
    [OSError] of the read). *)

Inductive file_result :=
| FileLines (lines : list string) (stop : option exn)
| FileError (e : exn).

Class OS := {
  os_isabs : string -> bool;
  os_relpath : string -> result string;
  os_open : string -> file_result
}.

(** [isinstance(e, ValueError)], the test of [except ValueError]. *)
Definition is_ValueError (e : exn) : bool :=
  match e with
  | ValueError | UnicodeDecodeError => true
  | _ => false
  end.

(** ** Hosts

    A host is an operating system in its regular condition: the working
    directory exists, so [relpath] fails by [ValueError] only ([None]),
    and a file that opens is read to its end. *)

Inductive open_result :=
| Opened (lines : list string)
| OpenError (e : exn).

Class Host := {
  isabs : string -> bool;
  relpath : string -> option string;
  open_file : string -> open_result
}.

#[global] Instance host_os `{Host} : OS := {|
  os_isabs := isabs;
  os_relpath p :=
    match relpath p with
    | Some r => Ret r
    | None => Raise ValueError
    end;
  os_open p :=
    match open_file p with
    | Opened lines => FileLines lines None
    | OpenError e => FileError e
    end
|}.
Coercion host_os : Host >-> OS.

(** ** Standard output and the printing computations *)

(** A line written to standard output: a plain text, a per-file row
    of the report or its row of sums.  [render] gives the characters. *)
Inductive out_line :=
| Text (s : string)
| FileRow (file : string) (lines covered : Z) (percent : PyNum.num)
| TotalRow (lines covered : Z) (percent : PyNum.num).

Definition IO (A : Type) : Type := list out_line -> list out_line * result A.

#[global] Instance io_ret : MRet IO := fun A (a : A) out => (out, Ret a).
#[global] Instance io_bind : MBind IO :=
  fun A B (f : A -> IO B) (m : IO A) out =>
    match m out with
    | (out', Ret a) => f a out'
    | (out', Raise e) => (out', Raise e)
    end.

Definition lift {A : Type} (r : result A) : IO A := fun out => (out, r).

Definition io_raise {A : Type} (e : exn) : IO A := fun out => (out, Raise e).

(** [sys.exit(code)] *)
Definition sys_exit {A : Type} (code : Z) : IO A := io_raise (SystemExit code).

(** [try: body except FileNotFoundError: handler] *)
Definition try_except_FileNotFoundError {A : Type} (body handler : IO A) : IO A :=
  fun out =>
    match body out with
    | (out', Raise FileNotFoundError) => handler out'
    | r => r
    end.

(** The loop [for x in xs: ...], threading the loop state. *)
Fixpoint for_each {S X : Type} (body : S -> X -> IO S) (s : S) (xs : list X) : IO S :=
  match xs with
  | [] => mret s
  | x :: xs' => s' ← body s x; for_each body s' xs'
  end.

(** The f-string of a row of the report:
    [{label:<60} | {lines:<10} | {covered:<10} | {percent:6.2f}%]. *)
Definition render_row (label : string) (lines covered : Z) (percent : PyNum.num)
  : result string :=
  p ← PyNum.format_6_2f percent;
  mret (PyNum.ljust 60 label ++ " | " ++ PyNum.ljust 10 (PyNum.str_of_int lines)
        ++ " | " ++ PyNum.ljust 10 (PyNum.str_of_int covered) ++ " | " ++ p ++ "%").

(** The text of a line of output. *)
Definition render (o : out_line) : result string :=
  match o with
  | Text s => Ret s
  | FileRow file lines covered percent => render_row file lines covered percent
  | TotalRow lines covered percent => render_row "TOTAL" lines covered percent
  end.

(** [print(x)]: the text is built first, which may raise; the line is
    then appended to standard output. *)
Definition print (o : out_line) : IO unit :=
  fun out =>
    match render o with
    | Ret _ => ((out ++ [o])%list, Ret tt)
    | Raise e => (out, Raise e)
    end.

(** ** [parse_lcov] *)

(** The two local variables of the loop. *)
Record pstate := { coverage : table; current_file : option string }.

Definition init : pstate := {| coverage := Dict.empty; current_file := None |}.

(** Truth value of [current_file]: [None] and [''] are false. *)
Definition truthy (cf : option string) : bool :=
  match cf with
  | Some (String _ _) => true
  | _ => false
  end.

(** [coverage[f]['total'] += 1] and [coverage[f]['covered'] += 1] *)
Definition incr_total (f : string) (cov : table) : result table :=
  s ← Dict.getitem f cov;
  mret (Dict.set f {| total := total s + 1; covered := covered s |} cov).

Definition incr_covered (f : string) (cov : table) : result table :=
  s ← Dict.getitem f cov;
  mret (Dict.set f {| total := total s; covered := covered s + 1 |} cov).

Section parse.
Context `{OS}.

(** Lines 15 to 20: the key an [SF:] path is stored under.  Only a
    [ValueError] of [relpath] is passed over; any other exception
    leaves the loop. *)
Definition normalize (p : string) : result string :=
  if os_isabs p then
    match os_relpath p with
    | Ret r => Ret r
    | Raise e => if is_ValueError e then Ret p else Raise e
    end
  else Ret p.

(** The body of the [for] loop, lines 12 to 29. *)
Definition process_line (st : pstate) (raw : string) : result pstate :=
  let line := Py.strip raw in
  if Py.startswith line "SF:" then
    f ← normalize (Py.slice_from 3 line);
    let cov := coverage st in
    let cov' :=
      if Dict.mem f cov then cov
      else Dict.set f {| total := 0; covered := 0 |} cov in
    mret {| coverage := cov'; current_file := Some f |}
  else if Py.startswith line "DA:" && truthy (current_file st) then
    match current_file st with
    | Some f =>
        let parts := Py.split "," (Py.slice_from 3 line) in
        if (2 <=? length parts)%nat then
          field ← py_index parts 1;
          count ← py_int field;
          cov1 ← incr_total f (coverage st);
          cov2 ← (if 0 <? count then incr_covered f cov1 else Ret cov1);
          mret {| coverage := cov2; current_file := Some f |}
        else Ret st
    | None => Ret st
    end
  else Ret st.

(** [for line in f: ...] *)
Fixpoint parse_lines (st : pstate) (lines : list string) : result pstate :=
  match lines with
  | [] => Ret st
  | l :: ls => st' ← process_line st l; parse_lines st' ls
  end.

(** The [with] block inside [try], then [return coverage].  An
    exception of the loop, or of the file iterator once the lines
    before it have been processed, is handled as one of [open] is. *)
Definition parse_lcov (file_path : string) : IO table :=
  try_except_FileNotFoundError
    (match os_open file_path with
     | FileError e => io_raise e
     | FileLines lines stop =>
         st ← lift (parse_lines init lines);
         _ ← lift (match stop with Some e => Raise e | None => Ret tt end);
         mret (coverage st)
     end)
    (_ ← print (Text ("Error: File " ++ file_path ++ " not found."));
     sys_exit 1).
End parse.

(** ** [print_report] *)

(** [sorted(keys)]: ascending by code point. *)
Definition sorted (keys : list string) : list string := merge_sort String.le keys.

Definition header : string :=
  PyNum.ljust 60 "File" ++ " | " ++ PyNum.ljust 10 "Lines" ++ " | "
  ++ PyNum.ljust 10 "Covered" ++ " | " ++ PyNum.ljust 8 "Coverage".

(** ["-" * 95] *)
Definition rule : string := string_of_list_ascii (repeat "-"%char 95).

(** [(c / l * 100) if l > 0 else 0] *)
Definition percentage (c l : Z) : result PyNum.num :=
  if 0 <? l then
    q ← PyNum.truediv c l;
    p ← PyNum.mul_int q 100;
    mret (PyNum.Float p)
  else Ret (PyNum.Int 0).

(** The body of the loop of lines 45 to 54, on the pair
    [(total_lines, total_covered)]. *)
Definition report_file (cov : table) (acc : Z * Z) (file : string) : IO (Z * Z) :=
  st ← lift (Dict.getitem file cov);
  let lines := total st in
  let covered := covered st in
  percent ← lift (percentage covered lines);
  let acc' := (fst acc + lines, snd acc + covered) in
  _ ← print (FileRow file lines covered percent);
  mret acc'.

Definition print_report (cov : table) : IO unit :=
  _ ← print (Text header);
  _ ← print (Text rule);
  let sorted_files := sorted (Dict.keys cov) in
  acc ← for_each (report_file cov) (0, 0) sorted_files;
  _ ← print (Text rule);
  total_percent ← lift (percentage (snd acc) (fst acc));
  print (TotalRow (fst acc) (snd acc) total_percent).

(** ** The entry point *)

Section main.
Context `{OS}.

Definition main (argv : list string) : IO unit :=
  if (length argv <? 2)%nat then
    _ ← print (Text "Usage: python analyze_coverage.py <lcov_file>");
    sys_exit 1
  else
    lcov_file ← lift (py_index argv 1);
    coverage_data ← parse_lcov lcov_file;
    print_report coverage_data.

(** What the process leaves behind: the lines on standard output and
    how the interpreter ended. *)
Definition run (argv : list string) : list out_line * result unit := main argv [].
End main.

(** Exit status of the interpreter: 0 on normal return, the code given
    to [sys.exit], 1 after an uncaught exception. *)
Definition exit_status (r : result unit) : Z :=
  match r with
  | Ret _ => 0
  | Raise (SystemExit c) => c
  | Raise _ => 1
  end.

(** ** A host for the examples

    The working directory is [C:/work]; only paths below it can be made
    relative, any other absolute path is on another drive.  Four files
    can be asked for. *)

Definition demo_isabs (p : string) : bool :=
  match p with
  | String _ (String ":" (String "/" _)) => true
  | _ => false
  end.

Definition demo_relpath (p : string) : option string :=
  if Py.startswith p "C:/work/" then Some (Py.slice_from 8 p) else None.

Definition demo_lines : list string :=
  [ "TN:";
    "DA:9,9";
    "  SF:C:/work/src/b.c  ";
    "DA:1,0";
    "DA:2,5,abc";
    "DA:3";
    "end_of_record";
    "SF:lib/a.c";
    " DA:1,0";
    "SF:src/b.c";
    "DA:7, 1_0 ";
    "SF:";
    "DA:1,1";
    "SF:D:/x.c" ].

Definition demo_open (p : string) : open_result :=
  if String.eqb p "cov.info" then Opened demo_lines
  else if String.eqb p "bad.info" then Opened ["SF:a.c"; "DA:1,1"; "DA:2,x"; "DA:3,1"]
  else if String.eqb p "locked.info" then OpenError PermissionError
  else OpenError FileNotFoundError.

Definition demo_host : Host :=
  {| isabs := demo_isabs; relpath := demo_relpath; open_file := demo_open |}.

(** A POSIX system whose working directory has been removed while the
    process runs: [os.getcwd()], which [os.path.relpath] calls once it
    has a path, raises [FileNotFoundError].  The file [/data/cov.info]
    is there and can be read; [/data/raw.info] is a file whose third
    line is no text in the encoding of [open]. *)
Definition posix_isabs (p : string) : bool := Py.startswith p "/".

Definition cwd_removed_open (p : string) : file_result :=
  if String.eqb p "/data/cov.info" then FileLines ["SF:/src/a.c"; "DA:1,1"] None
  else if String.eqb p "/data/raw.info" then
    FileLines ["SF:a.c"; "DA:1,1"] (Some UnicodeDecodeError)
  else FileError FileNotFoundError.

Definition cwd_removed : OS := {|
  os_isabs := posix_isabs;
  os_relpath p := if String.eqb p "" then Raise ValueError else Raise FileNotFoundError;
  os_open := cwd_removed_open
|}.

(** ** Specification-side notions *)

(** A line is a source-file record, or a line-data record, by the
    marker its stripped text begins with. *)
Definition is_sf (raw : string) : bool := Py.startswith (Py.strip raw) "SF:".
Definition is_da (raw : string) : bool := Py.startswith (Py.strip raw) "DA:".

(** The comma-separated fields after the marker. *)
Definition fields (raw : string) : list string :=
  Py.split "," (Py.slice_from 3 (Py.strip raw)).

(** The key a source-file record names on a host. *)
Definition host_key `{Host} (p : string) : string :=
  if isabs p then
    match relpath p with
    | Some r => r
    | None => p
    end
  else p.

Definition sf_key `{Host} (raw : string) : string :=
  host_key (Py.slice_from 3 (Py.strip raw)).

(** A line-data record whose second field is there but is no integer. *)
Definition bad_count (raw : string) : bool :=
  is_da raw &&
  match fields raw with
  | _ :: field :: _ => match Py.int field with Some _ => false | None => true end
  | _ => false
  end.

(** What one line adds to the record of the file [key] it falls under:
    1 to [total] for a line-data record of two fields or more, and 1 to
    [covered] when moreover the execution count is positive. *)
Definition line_total (key raw : string) : Z :=
  if negb (is_sf raw) && is_da raw && negb (String.eqb key "")
     && (2 <=? length (fields raw))%nat
  then 1 else 0.

Definition line_covered (key raw : string) : Z :=
  match fields raw with
  | _ :: field :: _ =>
      match Py.int field with
      | Some count => if 0 <? count then line_total key raw else 0
      | None => 0
      end
  | _ => 0
  end.

(** A section: its [SF:] line and the lines up to the next one. *)
Definition section : Type := string * list string.

Definition section_lines (sec : section) : list string := sec.1 :: sec.2.

Definition section_ok (sec : section) : Prop :=
  is_sf sec.1 = true /\ Forall (fun raw => is_sf raw = false) sec.2.

Fixpoint zsum (l : list Z) : Z :=
  match l with
  | [] => 0
  | x :: l' => x + zsum l'
  end.

(** Counts a section contributes on its own. *)
Definition section_total `{Host} (sec : section) : Z :=
  zsum (map (line_total (sf_key sec.1)) sec.2).
Definition section_covered `{Host} (sec : section) : Z :=
  zsum (map (line_covered (sf_key sec.1)) sec.2).

(** The sections that name the key [p]. *)
Definition sections_of `{Host} (p : string) (secs : list section) : list section :=
  filter (fun sec => sf_key sec.1 = p) secs.

(** The keys the sections name, in order. *)
Definition section_keys `{Host} (secs : list section) : list string :=
  map (fun sec => sf_key sec.1) secs.

(** A record with [t] and [c] added to its counts. *)
Definition bump (s : stats) (t c : Z) : stats :=
  {| total := total s + t; covered := covered s + c |}.

(** The row that [print_report] owes to the file [f] of the table. *)
Definition row_of (cov : table) (f : string) (o : out_line) : Prop :=
  exists s p,
    Dict.get f cov = Some s /\
    percentage (covered s) (total s) = Ret p /\
    o = FileRow f (total s) (covered s) p.

(** Sums of the two count columns over per-file rows, and over a table. *)
Definition row_lines (o : out_line) : Z :=
  match o with FileRow _ l _ _ => l | _ => 0 end.
Definition row_covered (o : out_line) : Z :=
  match o with FileRow _ _ c _ => c | _ => 0 end.

Definition table_total (cov : table) : Z := zsum (map (fun kv => total kv.2) cov).
Definition table_covered (cov : table) : Z := zsum (map (fun kv => covered kv.2) cov).

(** The float of sign [s], mantissa [m] and exponent [e], as a
    rounding returns it. *)
Definition mk_float (s : bool) (m e : Z) : PyNum.float :=
  match m with
  | Z0 => S754_zero s
  | Zpos p => if e <=? 971 then S754_finite s p e else S754_infinity s
  | Zneg _ => S754_nan
  end.

(** [near x num den]: the value of the float [x] is within [2^-42] of
    the fraction [num / den], for [den > 0].  For [x] of mantissa [m]
    and exponent [e <= 0], that is
    [|m * den - num * 2^-e| * 2^42 <= den * 2^-e]. *)
Definition near (x : PyNum.float) (num den : Z) : bool :=
  match x with
  | S754_zero _ => Z.abs num * 2 ^ 42 <=? den
  | S754_finite s m e =>
      (e <=? 0) &&
      (Z.abs ((if s then - Z.pos m else Z.pos m) * den - num * 2 ^ (- e)) * 2 ^ 42
         <=? den * 2 ^ (- e))
  | _ => false
  end.

(** The number of hundredths that [%.2f] shows for a float that is not
    negative, and the text of a number of hundredths. *)
Definition shown_hundredths (x : PyNum.float) : Z :=
  match x with
  | S754_finite false m e => PyNum.round_hundredths m e
  | _ => 0
  end.

Definition hundredths_text (n : Z) : string :=
  PyNum.str_of_int (n / 100) ++ "." ++ PyNum.two_digits (n mod 100).

(** [n] hundredths is the percentage of [c] in [l] rounded to two
    decimals: [n] differs from [10000 * c / l] by at most
    [1/2 + 2^-35]. *)
Definition nearest_hundredths (n c l : Z) : bool :=
  2 ^ 35 * Z.abs (n * l - 10000 * c) <=? (2 ^ 34 + 1) * l.

(** The guard of a percentage: the integer 0 of the [else] branch
    when [l <= 0], the float of a division when [l > 0]. *)
Definition guarded (l : Z) (p : PyNum.num) : Prop :=
  match p with
  | PyNum.Int z => l <= 0 /\ z = 0
  | PyNum.Float _ => 0 < l
  end.

(** The percentage the report owes to the counts [c] of [l].  When
    [l <= 0] it is the integer 0, which prints as [  0.00].  When
    [l > 0] it is a float that is [100 * c / l] up to [2^-42], and it
    prints as that percentage rounded to two decimals. *)
Definition percent_of (c l : Z) (p : PyNum.num) : Prop :=
  match p with
  | PyNum.Int z => l <= 0 /\ z = 0 /\ PyNum.format_6_2f p = Ret "  0.00"
  | PyNum.Float x =>
      0 < l /\
      near x (100 * c) l = true /\
      nearest_hundredths (shown_hundredths x) c l = true /\
      PyNum.format_6_2f p
        = Ret (PyNum.rjust 6 (hundredths_text (shown_hundredths x)))
  end.

(** The text of the lines of an output. *)
Definition rendered (out : list out_line) : list string :=
  omap (fun o => match render o with Ret s => Some s | Raise _ => None end) out.

(** The exceptions [open] raises for a path it cannot open. *)
Definition os_error (e : exn) : bool :=
  match e with
  | FileNotFoundError | PermissionError | IsADirectoryError => true
  | _ => false
  end.

(** The invariants of the table. *)
Definition bounded (cov : table) : Prop :=
  forall f s, Dict.get f cov = Some s -> 0 <= covered s <= total s.

Definition zero_stats : stats := {| total := 0; covered := 0 |}.

(** The paths of the per-file rows of an output, in printing order. *)
Definition row_files (out : list out_line) : list string :=
  omap (fun o => match o with FileRow f _ _ _ => Some f | _ => None end) out.

(** A string of white space only. *)
Fixpoint all_space (s : string) : bool :=
  match s with
  | EmptyString => true
  | String c s' => Py.is_space c && all_space s'
  end.

(** The current file, when there is one, has its record. *)
Definition linked (st : pstate) : Prop :=
  Dict.wf (coverage st) /\
  forall f, current_file st = Some f -> Dict.mem f (coverage st) = true.

(** The record keyed by the empty path, if any, counts nothing. *)
Definition blank_zero (cov : table) : Prop :=
  forall s, Dict.get "" cov = Some s -> s = zero_stats.

(** The steps of the loop that return, as a relation: a source-file
    record, a line that is passed over, a line-data record counted. *)
Inductive step `{Host} (st : pstate) (raw : string) : pstate -> Prop :=
| step_sf :
    is_sf raw = true ->
    step st raw
      {| coverage := if Dict.mem (sf_key raw) (coverage st) then coverage st
                     else Dict.set (sf_key raw) zero_stats (coverage st);
         current_file := Some (sf_key raw) |}
| step_skip :
    is_sf raw = false ->
    is_da raw = false \/ truthy (current_file st) = false
      \/ (length (fields raw) < 2)%nat ->
    step st raw st
| step_da f s x field rest count :
    is_da raw = true ->
    current_file st = Some f -> f <> "" ->
    Dict.get f (coverage st) = Some s ->
    fields raw = x :: field :: rest ->
    Py.int field = Some count ->
    step st raw
      {| coverage :=
           Dict.set f {| total := total s + 1;
                         covered := covered s + (if 0 <? count then 1 else 0) |}
             (coverage st);
         current_file := Some f |}.

(** A section whose lines can all be read: under a path that is not
    empty, no line-data record has a count that is no integer. *)
Definition section_clean `{Host} (sec : section) : Prop :=
  Forall (fun raw => sf_key sec.1 = "" \/ bad_count raw = false) sec.2.

(** The records of one path in two tables, added up. *)
Definition stats_merge (a b : option stats) : option stats :=
  match a, b with
  | Some sa, Some sb => Some (bump sa (total sb) (covered sb))
  | Some sa, None => Some sa
  | None, _ => b
  end.

(** The usage line of the entry point. *)
Definition usage : string := "Usage: python analyze_coverage.py <lcov_file>".

(** Case analysis on a step, with the names the proofs below use. *)
Ltac step_cases H :=
  destruct H as [Hsf|Hsf Hskip|f s x field rest count Hda Hcf Hf Hs Hfields Hint].

(** ** The dictionary *)

Section dict_facts.
Context {V : Type}.
Implicit Types (d : Dict.t V) (k : string) (v : V).

Lemma dict_mem_get k d : Dict.mem k d = true <-> is_Some (Dict.get k d).
Proof.
  unfold Dict.mem. destruct (Dict.get k d); split; intros Hm;
    try done; by inversion Hm.
Qed.

Lemma dict_mem_false k d : Dict.mem k d = false <-> Dict.get k d = None.
Proof. unfold Dict.mem. by destruct (Dict.get k d). Qed.

Lemma dict_get_set_eq k v d : Dict.get k (Dict.set k v d) = Some v.
Proof.
  induction d as [|[k' v'] d IH]; simpl.
  - by rewrite String.eqb_refl.
  - destruct (String.eqb_spec k k'); simpl.
    + by rewrite String.eqb_refl.
    + by destruct (String.eqb_spec k k').
Qed.

Lemma dict_get_set_ne k k' v d :
  k <> k' -> Dict.get k' (Dict.set k v d) = Dict.get k' d.
Proof.
  intros Hne. induction d as [|[k0 v0] d IH]; simpl.
  - destruct (String.eqb_spec k' k); congruence.
  - destruct (String.eqb_spec k k0) as [->|]; simpl.
    + destruct (String.eqb_spec k' k0); congruence.
    + by rewrite IH.
Qed.

Lemma dict_set_set k v v' d : Dict.set k v (Dict.set k v' d) = Dict.set k v d.
Proof.
  induction d as [|[k0 v0] d IH]; simpl.
  - by rewrite String.eqb_refl.
  - destruct (String.eqb_spec k k0) as [->|Hne]; simpl.
    + by rewrite String.eqb_refl.
    + destruct (String.eqb_spec k k0); [done|]. by rewrite IH.
Qed.

Lemma dict_get_elem_of k d : is_Some (Dict.get k d) <-> k ∈ Dict.keys d.
Proof.
  induction d as [|[k0 v0] d IH]; simpl.
  - split; [by intros [? ?]|by intros ?%elem_of_nil].
  - rewrite elem_of_cons. destruct (String.eqb_spec k k0) as [->|Hne].
    + split; eauto.
    + rewrite IH. split; [auto|intros [?|?]; [done|auto]].
Qed.

Lemma dict_keys_set_mem k v d :
  Dict.mem k d = true -> Dict.keys (Dict.set k v d) = Dict.keys d.
Proof.
  unfold Dict.mem. induction d as [|[k0 v0] d IH]; simpl; [done|].
  destruct (String.eqb_spec k k0) as [->|Hne]; simpl; [done|].
  intros Hm. by rewrite IH.
Qed.

Lemma dict_keys_set_new k v d :
  Dict.mem k d = false -> Dict.keys (Dict.set k v d) = (Dict.keys d ++ [k])%list.
Proof.
  unfold Dict.mem. induction d as [|[k0 v0] d IH]; simpl; [done|].
  destruct (String.eqb_spec k k0) as [->|Hne]; simpl; [done|].
  intros Hm. by rewrite IH.
Qed.

Lemma dict_wf_set k v d : Dict.wf d -> Dict.wf (Dict.set k v d).
Proof.
  unfold Dict.wf. intros Hwf. destruct (Dict.mem k d) eqn:Hm.
  - by rewrite dict_keys_set_mem.
  - rewrite dict_keys_set_new by done. apply NoDup_app. split_and!; [done| |].
    + intros x Hx ->%list_elem_of_singleton.
      apply dict_mem_false in Hm. apply dict_get_elem_of in Hx.
      rewrite Hm in Hx. by destruct Hx.
    + apply NoDup_singleton.
Qed.
End dict_facts.

(** ** Strings *)

Lemma string_app_cons c s t : String c s ++ t = String c (s ++ t).
Proof. reflexivity. Qed.

Lemma string_app_nil s : "" ++ s = s.
Proof. reflexivity. Qed.

Lemma startswith_app s p :
  Py.startswith s p = true -> s = p ++ Py.slice_from (String.length p) s.
Proof.
  unfold Py.startswith. revert s.
  induction p as [|c p IH]; intros s Hp; simpl in *; [done|].
  destruct s as [|c' s]; simpl in Hp; [done|].
  destruct (ascii_dec c c') as [->|]; [|done].
  rewrite ?string_app_cons; simpl. f_equal. by apply IH.
Qed.

Lemma startswith_app_true p r : Py.startswith (p ++ r) p = true.
Proof.
  unfold Py.startswith. induction p as [|c p IH]; simpl.
  - by destruct r.
  - by destruct (ascii_dec c c).
Qed.

Lemma sf_not_da raw : is_sf raw = true -> is_da raw = false.
Proof.
  unfold is_sf, is_da. intros Hsf. apply startswith_app in Hsf.
  by rewrite Hsf.
Qed.

Lemma lstrip_space_app ws s :
  all_space ws = true -> Py.lstrip (ws ++ s) = Py.lstrip s.
Proof.
  induction ws as [|c ws IH]; simpl; [done|].
  intros [Hc Hws]%andb_prop. rewrite ?string_app_cons; simpl. rewrite Hc. by apply IH.
Qed.

Lemma lstrip_space ws : all_space ws = true -> Py.lstrip ws = "".
Proof.
  induction ws as [|c ws IH]; simpl; [done|].
  intros [Hc Hws]%andb_prop. rewrite Hc. by apply IH.
Qed.

Lemma lstrip_empty_space s : Py.lstrip s = "" -> all_space s = true.
Proof.
  induction s as [|c s IH]; simpl; [done|].
  destruct (Py.is_space c); [auto|done].
Qed.

Lemma rstrip_space ws : all_space ws = true -> Py.rstrip ws = "".
Proof.
  induction ws as [|c ws IH]; simpl; [done|].
  intros [Hc Hws]%andb_prop. by rewrite IH, Hc.
Qed.

Lemma rstrip_app_space s ws :
  all_space ws = true -> Py.rstrip (s ++ ws) = Py.rstrip s.
Proof.
  intros Hws. induction s as [|c s IH].
  - by apply rstrip_space.
  - rewrite ?string_app_cons; simpl. by rewrite IH.
Qed.

Lemma rstrip_idem s : Py.rstrip (Py.rstrip s) = Py.rstrip s.
Proof.
  induction s as [|c s IH]; simpl; [done|].
  destruct (Py.rstrip s) as [|c' r] eqn:Hr.
  - destruct (Py.is_space c) eqn:Hc; simpl; [done|]. by rewrite Hc.
  - change (Py.rstrip (String c (String c' r))) with
      (match Py.rstrip (String c' r) with
       | "" => if Py.is_space c then "" else String c ""
       | r0 => String c r0
       end).
    by rewrite IH.
Qed.

Lemma lstrip_head s : Py.lstrip s = "" \/
  exists c r, Py.lstrip s = String c r /\ Py.is_space c = false.
Proof.
  induction s as [|c s IH]; simpl; [by left|].
  destruct (Py.is_space c) eqn:Hc; [done|]. right. eauto.
Qed.

Lemma rstrip_head c r :
  Py.is_space c = false -> exists r', Py.rstrip (String c r) = String c r'.
Proof.
  intros Hc. simpl. destruct (Py.rstrip r); rewrite ?Hc; eauto.
Qed.

Lemma lstrip_nonspace c r : Py.is_space c = false -> Py.lstrip (String c r) = String c r.
Proof. intros Hc. simpl. by rewrite Hc. Qed.

Lemma strip_idem s : Py.strip (Py.strip s) = Py.strip s.
Proof.
  unfold Py.strip. destruct (lstrip_head s) as [->|(c & r & -> & Hc)]; [done|].
  destruct (rstrip_head c r Hc) as [r' Hr]. rewrite Hr.
  rewrite (lstrip_nonspace _ _ Hc), <- Hr. apply rstrip_idem.
Qed.

Lemma lstrip_app_nonspace s c r ws :
  Py.lstrip s = String c r -> Py.lstrip (s ++ ws) = String c r ++ ws.
Proof.
  induction s as [|a s IH]; simpl; [done|].
  rewrite ?string_app_cons; simpl.
  destruct (Py.is_space a) eqn:Ha; [auto|]. by intros [= -> ->].
Qed.

Lemma strip_space_around ws1 ws2 s :
  all_space ws1 = true -> all_space ws2 = true ->
  Py.strip (ws1 ++ s ++ ws2) = Py.strip s.
Proof.
  intros H1 H2. unfold Py.strip. rewrite lstrip_space_app by done.
  destruct (lstrip_head s) as [Hs|(c & r & Hs & Hc)].
  - rewrite Hs. simpl.
    rewrite (lstrip_space_app s ws2) by by apply lstrip_empty_space.
    by rewrite lstrip_space.
  - rewrite (lstrip_app_nonspace _ _ _ _ Hs), Hs. by apply rstrip_app_space.
Qed.

(** ** One step of the parsing loop *)

Lemma truthy_Some f : truthy (Some f) = negb (String.eqb f "").
Proof. by destruct f. Qed.

Lemma truthy_inv cf : truthy cf = true -> exists f, cf = Some f /\ f <> "".
Proof. destruct cf as [[|c f]|]; simpl; try done. eauto. Qed.

Lemma fields_length raw : (1 <= length (fields raw))%nat.
Proof.
  unfold fields. generalize (Py.slice_from 3 (Py.strip raw)) as s.
  induction s as [|c s IH]; simpl; [lia|].
  destruct (Ascii.eqb c ","); simpl; [lia|].
  destruct (Py.split "," s); simpl in *; lia.
Qed.

Section step_facts.
Context `{Host}.
Implicit Types (st : pstate) (raw : string).

(** On a host the normalisation returns. *)
Lemma normalize_host (p : string) : normalize p = Ret (host_key p).
Proof.
  unfold normalize, host_key. cbn [os_isabs os_relpath host_os].
  destruct (isabs p); [|done]. by destruct (relpath p).
Qed.

Lemma process_line_sf st raw :
  is_sf raw = true ->
  process_line st raw =
    Ret {| coverage := if Dict.mem (sf_key raw) (coverage st) then coverage st
                       else Dict.set (sf_key raw) zero_stats (coverage st);
           current_file := Some (sf_key raw) |}.
Proof. unfold is_sf, process_line. intros ->. by rewrite normalize_host. Qed.

Lemma process_line_ignored st raw :
  is_sf raw = false -> is_da raw && truthy (current_file st) = false ->
  process_line st raw = Ret st.
Proof. unfold is_sf, is_da, process_line. by intros -> ->. Qed.

Lemma process_line_da st raw f :
  is_da raw = true -> current_file st = Some f -> f <> "" ->
  process_line st raw =
    match fields raw with
    | _ :: field :: _ =>
        count ← py_int field;
        cov1 ← incr_total f (coverage st);
        cov2 ← (if 0 <? count then incr_covered f cov1 else Ret cov1);
        mret {| coverage := cov2; current_file := Some f |}
    | _ => Ret st
    end.
Proof.
  intros Hda Hcf Hf. unfold process_line.
  destruct (Py.startswith (Py.strip raw) "SF:") eqn:Hsf.
  { apply sf_not_da in Hsf. congruence. }
  unfold is_da in Hda. rewrite Hda, Hcf, truthy_Some.
  destruct (String.eqb_spec f "") as [|_]; [done|]. cbn [andb negb].
  change (Py.split "," (Py.slice_from 3 (Py.strip raw))) with (fields raw).
  by destruct (fields raw) as [|x [|field rest]].
Qed.

(** Every step returns, or raises [ValueError] or [KeyError]; the
    latter needs a current file that the table lacks. *)
Lemma incr_total_get f cov s :
  Dict.get f cov = Some s ->
  incr_total f cov = Ret (Dict.set f {| total := total s + 1; covered := covered s |} cov).
Proof. unfold incr_total, Dict.getitem. by intros ->. Qed.

Lemma incr_covered_get f cov s :
  Dict.get f cov = Some s ->
  incr_covered f cov = Ret (Dict.set f {| total := total s; covered := covered s + 1 |} cov).
Proof. unfold incr_covered, Dict.getitem. by intros ->. Qed.

(** The effect of a line-data record on the record of the current
    file, once its count has been read. *)
Lemma process_line_da_counted st raw f s x field rest count :
  is_da raw = true -> current_file st = Some f -> f <> "" ->
  Dict.get f (coverage st) = Some s ->
  fields raw = x :: field :: rest -> Py.int field = Some count ->
  process_line st raw =
    Ret {| coverage :=
             Dict.set f {| total := total s + 1;
                           covered := covered s + (if 0 <? count then 1 else 0) |}
               (coverage st);
           current_file := Some f |}.
Proof.
  intros Hda Hcf Hf Hs Hfields Hint.
  rewrite (process_line_da _ _ f) by done. rewrite Hfields.
  unfold py_int. rewrite Hint. simpl.
  rewrite (incr_total_get _ _ s) by done. simpl.
  destruct (0 <? count); simpl.
  - rewrite (incr_covered_get _ _ {| total := total s + 1; covered := covered s |})
      by apply dict_get_set_eq.
    simpl. by rewrite dict_set_set.
  - by rewrite Z.add_0_r.
Qed.
End step_facts.

Section run_facts.
Context `{Host}.
Implicit Types (st : pstate) (raw : string).

Lemma step_process_line st raw st' :
  step st raw st' -> process_line st raw = Ret st'.
Proof.
  intros Hstep; step_cases Hstep.
  - by apply process_line_sf.
  - destruct (is_da raw && truthy (current_file st)) eqn:Hact.
    + apply andb_prop in Hact as [Hda Htr].
      destruct Hskip as [?|[?|Hlen]]; [congruence..|].
      apply truthy_inv in Htr as (f & Hcf & Hf).
      rewrite (process_line_da _ _ f) by done.
      destruct (fields raw) as [|x [|field rest]]; simpl in Hlen; [done..|lia].
    + by apply process_line_ignored.
  - by eapply process_line_da_counted.
Qed.

Lemma process_line_step st raw st' :
  process_line st raw = Ret st' -> step st raw st'.
Proof.
  intros Hp. destruct (is_sf raw) eqn:Hsf.
  { rewrite process_line_sf in Hp by done. injection Hp as <-. by constructor. }
  destruct (is_da raw) eqn:Hda.
  2:{ rewrite process_line_ignored in Hp by (by rewrite ?Hda). injection Hp as <-.
      constructor; auto. }
  destruct (truthy (current_file st)) eqn:Htr.
  2:{ rewrite process_line_ignored in Hp by (by rewrite ?Hda, ?Htr). injection Hp as <-.
      constructor; auto. }
  apply truthy_inv in Htr as (f & Hcf & Hf).
  pose proof Hp as Hp0. rewrite (process_line_da _ _ f) in Hp by done.
  destruct (fields raw) as [|x [|field rest]] eqn:Hfields.
  - injection Hp as <-. constructor; [done|]. right; right. rewrite Hfields. simpl. lia.
  - injection Hp as <-. constructor; [done|]. right; right. rewrite Hfields. simpl. lia.
  - unfold py_int in Hp. destruct (Py.int field) as [count|] eqn:Hint; [|done].
    simpl in Hp. unfold incr_total, Dict.getitem in Hp.
    destruct (Dict.get f (coverage st)) as [s|] eqn:Hs; [|done].
    rewrite (process_line_da_counted st raw f s x field rest count) in Hp0 by done.
    injection Hp0 as <-. by econstructor.
Qed.

Lemma parse_lines_app st l1 l2 :
  parse_lines st (l1 ++ l2) = st' ← parse_lines st l1; parse_lines st' l2.
Proof.
  revert st. induction l1 as [|raw l1 IH]; intros st; simpl; [done|].
  destruct (process_line st raw); simpl; [apply IH|done].
Qed.

(** A property kept by every returning step is kept by the loop. *)
Lemma parse_lines_preserves (P : pstate -> Prop) :
  (forall st raw st', P st -> step st raw st' -> P st') ->
  forall lines st st', P st -> parse_lines st lines = Ret st' -> P st'.
Proof.
  intros Hstep. induction lines as [|raw lines IH]; intros st st' HP; simpl.
  - by intros [= <-].
  - destruct (process_line st raw) as [st1|] eqn:Hp; simpl; [|done].
    apply IH. eapply Hstep; [done|]. by apply process_line_step.
Qed.

Lemma step_linked st raw st' : linked st -> step st raw st' -> linked st'.
Proof.
  intros [Hwf Hcur]. intros Hstep; step_cases Hstep;
    [|done|]; split; simpl.
  - destruct (Dict.mem (sf_key raw) (coverage st)); [done|]. by apply dict_wf_set.
  - intros f [= <-]. destruct (Dict.mem (sf_key raw) (coverage st)) eqn:Hm; [done|].
    apply dict_mem_get. rewrite dict_get_set_eq. eauto.
  - by apply dict_wf_set.
  - intros f' [= <-]. apply dict_mem_get. rewrite dict_get_set_eq. eauto.
Qed.

Lemma init_linked : linked init.
Proof. split; [constructor|done]. Qed.

Lemma parse_lines_linked lines st st' :
  linked st -> parse_lines st lines = Ret st' -> linked st'.
Proof. apply (parse_lines_preserves linked). apply step_linked. Qed.

Lemma step_bounded st raw st' :
  bounded (coverage st) -> step st raw st' -> bounded (coverage st').
Proof.
  intros Hb. intros Hstep; step_cases Hstep;
    [|done|]; simpl; intros g sg.
  - destruct (Dict.mem _ _); [apply Hb|].
    destruct (decide (sf_key raw = g)) as [<-|Hne].
    + rewrite dict_get_set_eq. intros [= <-]. simpl. lia.
    + rewrite dict_get_set_ne by done. apply Hb.
  - destruct (decide (f = g)) as [<-|Hne].
    + rewrite dict_get_set_eq. intros [= <-]. simpl.
      specialize (Hb _ _ Hs). destruct (0 <? count); lia.
    + rewrite dict_get_set_ne by done. apply Hb.
Qed.

Lemma step_blank_zero st raw st' :
  blank_zero (coverage st) -> step st raw st' -> blank_zero (coverage st').
Proof.
  intros Hb. intros Hstep; step_cases Hstep;
    [|done|]; simpl; intros sg.
  - destruct (Dict.mem _ _); [apply Hb|].
    destruct (decide (sf_key raw = "")) as [->|Hne].
    + rewrite dict_get_set_eq. by intros [= <-].
    + rewrite dict_get_set_ne by done. apply Hb.
  - rewrite dict_get_set_ne by done. apply Hb.
Qed.

(** On a host the loop raises nothing but [ValueError], and that only
    at a line-data record whose count is no integer. *)
Lemma process_line_raise st raw e :
  linked st -> process_line st raw = Raise e ->
  e = ValueError /\ bad_count raw = true /\ truthy (current_file st) = true.
Proof.
  intros [_ Hcur] Hp. destruct (is_sf raw) eqn:Hsf.
  { by rewrite process_line_sf in Hp. }
  destruct (is_da raw && truthy (current_file st)) eqn:Hact.
  2:{ by rewrite process_line_ignored in Hp. }
  apply andb_prop in Hact as [Hda Htr]. pose proof Htr as Htr'.
  apply truthy_inv in Htr as (f & Hcf & Hf).
  rewrite (process_line_da _ _ f) in Hp by done.
  unfold bad_count. rewrite Hda. cbn [andb].
  destruct (fields raw) as [|x [|field rest]]; [done..|].
  unfold py_int in Hp. destruct (Py.int field) as [count|]; [|by injection Hp as <-].
  exfalso. simpl in Hp. apply Hcur, dict_mem_get in Hcf as [s Hs].
  rewrite (incr_total_get _ _ s) in Hp by done. simpl in Hp.
  destruct (0 <? count); [|done].
  by rewrite (incr_covered_get _ _ {| total := total s + 1; covered := covered s |})
    in Hp by apply dict_get_set_eq.
Qed.

Lemma parse_lines_returns lines st :
  linked st -> Forall (fun raw => bad_count raw = false) lines ->
  exists st', parse_lines st lines = Ret st'.
Proof.
  revert st. induction lines as [|raw lines IH]; intros st Hl Hok; simpl; [eauto|].
  apply Forall_cons in Hok as [Hraw Hok].
  destruct (process_line st raw) as [st1|e] eqn:Hp; simpl.
  - apply IH; [|done]. eapply step_linked; [done|]. by apply process_line_step.
  - apply process_line_raise in Hp as (_ & Hbad & _); [congruence|done].
Qed.

Lemma parse_lines_raise lines st e :
  linked st -> parse_lines st lines = Raise e ->
  e = ValueError /\ Exists (fun raw => bad_count raw = true) lines.
Proof.
  revert st. induction lines as [|raw lines IH]; intros st Hl; simpl; [done|].
  destruct (process_line st raw) as [st1|e1] eqn:Hp; simpl.
  - intros Hr. apply IH in Hr as [-> Hex].
    + split; [done|]. by apply Exists_cons_tl.
    + eapply step_linked; [done|]. by apply process_line_step.
  - intros [= ->]. apply process_line_raise in Hp as (-> & Hbad & _); [|done].
    split; [done|]. by apply Exists_cons_hd.
Qed.
End run_facts.

(** ** [parse_lcov] as a whole *)

Section parse_lcov_facts.
Context `{Host}.

Lemma parse_lcov_opened path lines out :
  open_file path = Opened lines ->
  parse_lcov path out =
    (out, match parse_lines init lines with
          | Ret st => Ret (coverage st)
          | Raise e => Raise e
          end).
Proof.
  intros Hopen. unfold parse_lcov, try_except_FileNotFoundError.
  cbn [os_open host_os]. rewrite Hopen.
  unfold mbind, io_bind, lift, mret, io_ret.
  destruct (parse_lines init lines) as [st|e] eqn:Hp; [done|].
  apply parse_lines_raise in Hp as [-> _]; [done|apply init_linked].
Qed.

Lemma parse_lcov_ret path out out' cov :
  parse_lcov path out = (out', Ret cov) ->
  out' = out /\ exists lines st,
    open_file path = Opened lines /\ parse_lines init lines = Ret st /\ cov = coverage st.
Proof.
  destruct (open_file path) as [lines|e] eqn:Hopen.
  - rewrite (parse_lcov_opened _ lines) by done.
    destruct (parse_lines init lines) as [st|e] eqn:Hp; [|done].
    intros [= -> <-]. eauto 10.
  - unfold parse_lcov, try_except_FileNotFoundError.
  cbn [os_open host_os]. rewrite Hopen.
    unfold io_raise. by destruct e.
Qed.

Lemma parse_lcov_missing path out :
  open_file path = OpenError FileNotFoundError ->
  parse_lcov path out =
    ((out ++ [Text ("Error: File " ++ path ++ " not found.")])%list, Raise (SystemExit 1)).
Proof.
  intros Hopen. unfold parse_lcov, try_except_FileNotFoundError.
  cbn [os_open host_os]. by rewrite Hopen.
Qed.

Lemma parse_lcov_open_error path out e :
  open_file path = OpenError e -> e <> FileNotFoundError ->
  parse_lcov path out = (out, Raise e).
Proof.
  intros Hopen He. unfold parse_lcov, try_except_FileNotFoundError.
  cbn [os_open host_os]. rewrite Hopen.
  unfold io_raise. by destruct e.
Qed.
End parse_lcov_facts.

(** ** Malformed line-data records (C1) *)

(** C1.  The program on a file with a line-data record whose count is
    no integer: the lines [SF:a.c], [DA:1,1], [DA:2,x], [DA:3,1].  The
    record [DA:2,x] has two fields and is met with [a.c] as current
    file; it is not passed over: [int('x')] raises [ValueError], which
    no handler of [parse_lcov] catches, so the loop stops there,
    [parse_lcov] returns no table, and the run ends on the exception
    with status 1 and nothing printed.  Without that line the same file
    gives two counted lines for [a.c]. *)
Theorem bad_count_not_skipped :
  let st := {| coverage := [("a.c", {| total := 1; covered := 1 |})];
               current_file := Some "a.c" |} in
  @os_open demo_host "bad.info" = FileLines ["SF:a.c"; "DA:1,1"; "DA:2,x"; "DA:3,1"] None /\
  @parse_lines demo_host init ["SF:a.c"; "DA:1,1"] = Ret st /\
  is_da "DA:2,x" = true /\ truthy (current_file st) = true /\
  fields "DA:2,x" = ["2"; "x"] /\ Py.int "x" = None /\
  @process_line demo_host st "DA:2,x" = Raise ValueError /\
  @parse_lines demo_host init ["SF:a.c"; "DA:1,1"; "DA:2,x"; "DA:3,1"] = Raise ValueError /\
  @parse_lcov demo_host "bad.info" [] = ([], Raise ValueError) /\
  @run demo_host ["analyze_coverage.py"; "bad.info"] = ([], Raise ValueError) /\
  exit_status (@run demo_host ["analyze_coverage.py"; "bad.info"]).2 = 1 /\
  @parse_lines demo_host init ["SF:a.c"; "DA:1,1"; "DA:3,1"] =
    Ret {| coverage := [("a.c", {| total := 2; covered := 2 |})];
           current_file := Some "a.c" |}.
Proof. by repeat split. Qed.

(** X14.  A line-data record met on a host, in a state the loop can
    reach, with a current file: it is passed over without a change when it has
    fewer than two fields; when its second field is no integer the step
    raises [ValueError] and so does the loop, whatever follows; in every
    other case the step returns. *)
Theorem da_line_skipped_or_raises `{Host} (pre : list string) (st : pstate) (raw : string) :
  parse_lines init pre = Ret st ->
  is_da raw = true ->
  truthy (current_file st) = true ->
  ((length (fields raw) < 2)%nat -> process_line st raw = Ret st) /\
  (bad_count raw = true ->
     process_line st raw = Raise ValueError /\
     forall rest, parse_lines init (pre ++ raw :: rest) = Raise ValueError) /\
  (bad_count raw = false -> exists st', process_line st raw = Ret st').
Proof.
  intros Hpre Hda Htr.
  assert (Hl : linked st) by (eapply parse_lines_linked; [apply init_linked|done]).
  assert (Hbad : bad_count raw = true -> process_line st raw = Raise ValueError).
  { intros Hbad. destruct (process_line st raw) as [st'|e] eqn:Hp.
    - apply process_line_step in Hp. unfold bad_count in Hbad. rewrite Hda in Hbad.
      destruct Hp as [Hsf|Hsf Hskip|f s x field rest count _ Hcf Hf Hs Hfields Hint].
      + apply sf_not_da in Hsf. congruence.
      + destruct Hskip as [?|[?|Hlen]]; [congruence..|].
        destruct (fields raw) as [|x [|field rest]]; simpl in *; [done..|lia].
      + rewrite Hfields, Hint in Hbad. done.
    - by apply process_line_raise in Hp as [-> _]. }
  split; [|split].
  - intros Hlen. apply step_process_line. constructor; [|auto].
    destruct (is_sf raw) eqn:Hsf; [|done]. apply sf_not_da in Hsf. congruence.
  - intros Hb. split; [auto|]. intros rest.
    rewrite parse_lines_app, Hpre. simpl. by rewrite Hbad.
  - intros Hok. destruct (process_line st raw) as [st'|e] eqn:Hp; [eauto|].
    apply process_line_raise in Hp as (_ & Hb & _); [congruence|done].
Qed.

Lemma da_line_skipped_or_raises_witness :
  let st := {| coverage := [("a.c", zero_stats)]; current_file := Some "a.c" |} in
  ((length (fields "DA:2") < 2)%nat -> @process_line demo_host st "DA:2" = Ret st) /\
  (bad_count "DA:2" = true ->
     @process_line demo_host st "DA:2" = Raise ValueError /\
     forall rest, @parse_lines demo_host init (["SF:a.c"] ++ "DA:2" :: rest) = Raise ValueError) /\
  (bad_count "DA:2" = false -> exists st', @process_line demo_host st "DA:2" = Ret st').
Proof.
  apply (@da_line_skipped_or_raises demo_host ["SF:a.c"]); reflexivity.
Defined.

(** ** The invariant of the table (C3) *)

(** C3.  Every record of a table that [parse_lcov] returns has
    [0 <= covered <= total]; every step of the loop that returns keeps
    this, and moves the counts of a record by nothing, or [total] by
    one and [covered] by at most one. *)
Theorem covered_le_total `{Host} :
  (forall path out out' cov f s,
     parse_lcov path out = (out', Ret cov) ->
     Dict.get f cov = Some s -> 0 <= covered s <= total s) /\
  (forall st raw st',
     bounded (coverage st) -> process_line st raw = Ret st' ->
     bounded (coverage st')) /\
  (forall st raw st' f s s',
     process_line st raw = Ret st' ->
     Dict.get f (coverage st) = Some s -> Dict.get f (coverage st') = Some s' ->
     (total s' = total s /\ covered s' = covered s) \/
     (is_da raw = true /\ total s' = total s + 1 /\
      covered s <= covered s' <= covered s + 1)).
Proof.
  split_and!.
  - intros path out out' cov f s Hp Hs.
    apply parse_lcov_ret in Hp as (_ & lines & st & _ & Hrun & ->).
    revert f s Hs. change (bounded (coverage st)).
    apply (parse_lines_preserves (fun st => bounded (coverage st))) with lines init;
      [apply @step_bounded|done|done].
  - intros st raw st' Hb Hp. eapply step_bounded; [done|]. by apply process_line_step.
  - intros st raw st' f s s' Hp Hs Hs'. apply process_line_step in Hp.
    destruct Hp as [Hsf|Hsf Hskip|g sg x field rest count Hda Hcf Hg Hsg Hfields Hint];
      simpl in Hs'.
    + left. destruct (Dict.mem (sf_key raw) (coverage st)) eqn:Hm;
        [by simplify_eq|].
      apply dict_mem_false in Hm.
      destruct (decide (sf_key raw = f)) as [<-|Hne]; [congruence|].
      rewrite dict_get_set_ne in Hs' by done. by simplify_eq.
    + left. by simplify_eq.
    + destruct (decide (g = f)) as [->|Hne].
      * right. rewrite dict_get_set_eq in Hs'. simplify_eq. simpl.
        split_and!; [done..| |]; destruct (0 <? count); lia.
      * left. rewrite dict_get_set_ne in Hs' by done. by simplify_eq.
Qed.

Lemma covered_le_total_witness :
  0 <= covered {| total := 3; covered := 2 |} <= total {| total := 3; covered := 2 |}.
Proof.
  eapply (proj1 (@covered_le_total demo_host) "cov.info" [] [] _ "src/b.c");
    [vm_compute; reflexivity|reflexivity].
Defined.


(** ** Counting a line-data record (C4) *)

Lemma parse_lines_no_sf `{Host} (lines : list string) :
  Forall (fun raw => is_sf raw = false) lines -> parse_lines init lines = Ret init.
Proof.
  induction 1 as [|raw lines Hraw _ IH]; simpl; [done|].
  rewrite process_line_ignored; [done..|]. by rewrite andb_false_r.
Qed.

(** C4, as stated, fails: the record [DA:2,x] has two comma-separated
    fields and is met with [a.c] as current file, in a state the loop
    reaches, yet the [total] of [a.c] is not incremented: the step
    returns no state at all, it raises [ValueError]. *)
Lemma bad_count_not_counted :
  let st := {| coverage := [("a.c", {| total := 1; covered := 1 |})];
               current_file := Some "a.c" |} in
  @parse_lines demo_host init ["SF:a.c"; "DA:1,1"] = Ret st /\
  is_da "DA:2,x" = true /\ current_file st = Some "a.c" /\
  (2 <= length (fields "DA:2,x"))%nat /\
  (forall st', @process_line demo_host st "DA:2,x" <> Ret st') /\
  @process_line demo_host st "DA:2,x" = Raise ValueError.
Proof. by repeat split. Qed.

(** C4, amended.  In a state the loop can reach, a line-data record of
    two fields or more whose second field [int] reads as [count], met
    under the current file [f], adds exactly 1 to the [total] of [f],
    and exactly 1 to its [covered] if and only if [count > 0]; nothing
    else changes.  And lines that come before any source-file record
    leave the table empty. *)
Theorem da_line_counted `{Host} :
  (forall pre st raw f x field rest count,
     parse_lines init pre = Ret st ->
     is_da raw = true -> current_file st = Some f -> f <> "" ->
     fields raw = x :: field :: rest -> Py.int field = Some count ->
     exists s s' st',
       Dict.get f (coverage st) = Some s /\
       process_line st raw = Ret st' /\
       current_file st' = Some f /\
       Dict.get f (coverage st') = Some s' /\
       total s' = total s + 1 /\
       (covered s' = covered s + 1 <-> 0 < count) /\
       (covered s' = covered s \/ covered s' = covered s + 1) /\
       Dict.keys (coverage st') = Dict.keys (coverage st) /\
       forall g, g <> f -> Dict.get g (coverage st') = Dict.get g (coverage st)) /\
  (forall pre,
     Forall (fun raw => is_sf raw = false) pre ->
     parse_lines init pre = Ret init /\ coverage init = []).
Proof.
  split.
  - intros pre st raw f x field rest count Hpre Hda Hcf Hf Hfields Hint.
    assert (Hl : linked st) by (eapply parse_lines_linked; [apply init_linked|done]).
    destruct Hl as [_ Hcur]. pose proof (Hcur _ Hcf) as Hm.
    pose proof Hm as [s Hs]%dict_mem_get.
    eexists s, _, _. split; [done|]. split.
    { by eapply process_line_da_counted. }
    simpl. rewrite dict_get_set_eq. split_and!; [done..| | | |]; simpl.
    + destruct (Z.ltb_spec 0 count); lia.
    + destruct (0 <? count); lia.
    + by apply dict_keys_set_mem.
    + intros g Hg. by apply dict_get_set_ne.
  - intros pre Hpre. split; [by apply parse_lines_no_sf|done].
Qed.

Lemma da_line_counted_witness :
  exists s s' st',
    Dict.get "a.c" [("a.c", {| total := 4; covered := 1 |})] = Some s /\
    @process_line demo_host
      {| coverage := [("a.c", {| total := 4; covered := 1 |})];
         current_file := Some "a.c" |} "DA:7,3" = Ret st' /\
    current_file st' = Some "a.c" /\
    Dict.get "a.c" (coverage st') = Some s' /\
    total s' = total s + 1 /\
    (covered s' = covered s + 1 <-> 0 < 3) /\
    (covered s' = covered s \/ covered s' = covered s + 1) /\
    Dict.keys (coverage st') = Dict.keys [("a.c", {| total := 4; covered := 1 |})] /\
    forall g, g <> "a.c" ->
      Dict.get g (coverage st') = Dict.get g [("a.c", {| total := 4; covered := 1 |})].
Proof.
  apply (proj1 (@da_line_counted demo_host)
           ["SF:a.c"; "DA:1,0"; "DA:2,0"; "DA:3,1"; "DA:4,0"]
           {| coverage := [("a.c", {| total := 4; covered := 1 |})];
              current_file := Some "a.c" |}
           "DA:7,3" "a.c" "7" "3" [] 3); try reflexivity.
  intros Heq. discriminate Heq.
Defined.

(** ** The key of a source-file record (C8) *)

(** C8.  The program on an existing file whose first line is [SF:]
    with an absolute path, run after the working directory has been
    removed: [os.path.relpath] raises [FileNotFoundError] (from
    [os.getcwd()]), which [except ValueError] does not catch.  The
    record is not kept under the absolute path and the error is not
    silent: the step raises, the handler for a missing input file takes
    the exception, and the run prints that [/data/cov.info] was not
    found and exits with status 1. *)
Theorem sf_line_cwd_removed :
  @os_open cwd_removed "/data/cov.info" = FileLines ["SF:/src/a.c"; "DA:1,1"] None /\
  is_sf "SF:/src/a.c" = true /\
  @os_isabs cwd_removed "/src/a.c" = true /\
  @os_relpath cwd_removed "/src/a.c" = Raise FileNotFoundError /\
  @normalize cwd_removed "/src/a.c" = Raise FileNotFoundError /\
  @process_line cwd_removed init "SF:/src/a.c" = Raise FileNotFoundError /\
  (forall st', @process_line cwd_removed init "SF:/src/a.c" <> Ret st') /\
  @parse_lcov cwd_removed "/data/cov.info" [] =
    ([Text "Error: File /data/cov.info not found."], Raise (SystemExit 1)) /\
  @run cwd_removed ["analyze_coverage.py"; "/data/cov.info"] =
    ([Text "Error: File /data/cov.info not found."], Raise (SystemExit 1)) /\
  exit_status (@run cwd_removed ["analyze_coverage.py"; "/data/cov.info"]).2 = 1.
Proof. by repeat split. Qed.

(** X15.  A source-file record on any system.  Its path is the
    stripped line after the marker.  A path that is not absolute is kept as it is; an
    absolute path that [relpath] converts is kept converted; when
    [relpath] raises [ValueError] the record is kept under the path as
    it is; when [relpath] raises anything else, the step raises it.
    When the step returns, the record of the key is there, new records
    count nothing and no other record is touched. *)
Theorem sf_line_key `{OS} (st : pstate) (raw : string) :
  is_sf raw = true ->
  let p := Py.slice_from 3 (Py.strip raw) in
  let kept key :=
    process_line st raw =
      Ret {| coverage := if Dict.mem key (coverage st) then coverage st
                         else Dict.set key zero_stats (coverage st);
             current_file := Some key |} in
  (os_isabs p = false -> kept p) /\
  (os_isabs p = true -> forall r, os_relpath p = Ret r -> kept r) /\
  (os_isabs p = true ->
   forall e, os_relpath p = Raise e -> is_ValueError e = true -> kept p) /\
  (os_isabs p = true ->
   forall e, os_relpath p = Raise e -> is_ValueError e = false ->
   process_line st raw = Raise e) /\
  (forall st' key,
     process_line st raw = Ret st' -> current_file st' = Some key ->
     is_Some (Dict.get key (coverage st')) /\
     (Dict.get key (coverage st) = None -> Dict.get key (coverage st') = Some zero_stats) /\
     forall g, g <> key -> Dict.get g (coverage st') = Dict.get g (coverage st)).
Proof.
  intros Hsf p kept. unfold is_sf in Hsf. subst kept. cbv beta.
  unfold process_line. rewrite Hsf. cbv zeta. fold p. unfold normalize.
  split_and!.
  - by intros ->.
  - by intros -> r ->.
  - by intros -> e -> ->.
  - by intros -> e -> ->.
  - intros st' key Hp Hkey.
    destruct (if os_isabs p then _ else _) as [k|e]; [|done].
    simpl in Hp. injection Hp as <-. simpl in Hkey. injection Hkey as ->. simpl.
    destruct (Dict.mem key (coverage st)) eqn:Hm.
    + split_and!; [by apply dict_mem_get| |done].
      apply dict_mem_get in Hm as [s Hs]. congruence.
    + split_and!.
      * rewrite dict_get_set_eq. eauto.
      * intros _. apply dict_get_set_eq.
      * intros g Hg. by apply dict_get_set_ne.
Qed.

Lemma sf_line_key_witness :
  let kept key :=
    @process_line demo_host init "SF:D:/x.c" =
      Ret {| coverage := if Dict.mem key (coverage init) then coverage init
                         else Dict.set key zero_stats (coverage init);
             current_file := Some key |} in
  (@os_isabs demo_host "D:/x.c" = false -> kept "D:/x.c") /\
  (@os_isabs demo_host "D:/x.c" = true ->
   forall r, @os_relpath demo_host "D:/x.c" = Ret r -> kept r) /\
  (@os_isabs demo_host "D:/x.c" = true ->
   forall e, @os_relpath demo_host "D:/x.c" = Raise e -> is_ValueError e = true ->
   kept "D:/x.c") /\
  (@os_isabs demo_host "D:/x.c" = true ->
   forall e, @os_relpath demo_host "D:/x.c" = Raise e -> is_ValueError e = false ->
   @process_line demo_host init "SF:D:/x.c" = Raise e) /\
  (forall st' key,
     @process_line demo_host init "SF:D:/x.c" = Ret st' -> current_file st' = Some key ->
     is_Some (Dict.get key (coverage st')) /\
     (Dict.get key (coverage init) = None ->
      Dict.get key (coverage st') = Some zero_stats) /\
     forall g, g <> key -> Dict.get g (coverage st') = Dict.get g (coverage init)).
Proof. apply (@sf_line_key demo_host init "SF:D:/x.c"). reflexivity. Defined.

(** ** The empty path (C9) *)

Lemma step_keeps_records `{Host} (k : string) (st : pstate) (raw : string) (st' : pstate) :
  is_Some (Dict.get k (coverage st)) -> step st raw st' ->
  is_Some (Dict.get k (coverage st')).
Proof.
  intros Hk. intros Hstep; step_cases Hstep;
    [|done|]; simpl.
  - destruct (Dict.mem (sf_key raw) (coverage st)); [done|].
    destruct (decide (sf_key raw = k)) as [<-|Hne].
    + rewrite dict_get_set_eq. eauto.
    + by rewrite dict_get_set_ne.
  - destruct (decide (f = k)) as [<-|Hne].
    + rewrite dict_get_set_eq. eauto.
    + by rewrite dict_get_set_ne.
Qed.

Lemma sf_key_blank `{Host} (raw : string) :
  isabs "" = false -> Py.strip raw = "SF:" -> is_sf raw = true /\ sf_key raw = "".
Proof.
  intros Habs Hraw. unfold is_sf, sf_key, host_key. rewrite Hraw. simpl.
  by rewrite Habs.
Qed.

(** C9.  On a host where the empty path is not absolute (as
    [os.path.isabs] has it), a line that is exactly [SF:] once stripped,
    met in a state the loop can reach, leaves a record for the empty
    path with both counts 0 and makes the empty path the current file;
    the lines after it, up to the next source-file record that is not
    blank, change nothing, whatever they are; and in the table of any
    longer run that returns, the record of the empty path still counts
    nothing. *)
Theorem blank_sf_line `{Host} (pre : list string) (st : pstate) (raw : string)
    (body : list string) :
  isabs "" = false ->
  parse_lines init pre = Ret st ->
  Py.strip raw = "SF:" ->
  Forall (fun l => is_sf l = false \/ Py.strip l = "SF:") body ->
  exists st',
    process_line st raw = Ret st' /\
    current_file st' = Some "" /\
    Dict.get "" (coverage st') = Some zero_stats /\
    parse_lines st' body = Ret st' /\
    forall rest fin,
      parse_lines init (pre ++ raw :: rest) = Ret fin ->
      Dict.get "" (coverage fin) = Some zero_stats.
Proof.
  intros Habs Hpre Hraw Hbody.
  destruct (sf_key_blank raw Habs Hraw) as [Hsf Hkey].
  assert (Hz : blank_zero (coverage st)).
  { apply (parse_lines_preserves (fun st => blank_zero (coverage st))) with pre init;
      [apply @step_blank_zero|done|done]. }
  pose proof (process_line_sf st raw Hsf) as Hstep. rewrite Hkey in Hstep.
  eexists. split; [exact Hstep|]. simpl.
  assert (Hget : Dict.get ""
            (if Dict.mem "" (coverage st) then coverage st
             else Dict.set "" zero_stats (coverage st)) = Some zero_stats).
  { destruct (Dict.mem "" (coverage st)) eqn:Hm.
    - apply dict_mem_get in Hm as [s Hs]. rewrite Hs. f_equal. by apply Hz.
    - apply dict_get_set_eq. }
  split_and!; [done|done| |].
  - clear Hstep. induction Hbody as [|l body Hl _ IH]; simpl; [done|].
    destruct Hl as [Hl|Hl].
    + rewrite process_line_ignored; [done..|]. simpl. by rewrite andb_false_r.
    + destruct (sf_key_blank l Habs Hl) as [Hsfl Hkl].
      rewrite process_line_sf by done. rewrite Hkl. simpl.
      assert (Dict.mem ""
                (if Dict.mem "" (coverage st) then coverage st
                 else Dict.set "" zero_stats (coverage st)) = true) as ->.
      { apply dict_mem_get. rewrite Hget. eauto. }
      simpl. apply IH.
  - intros rest fin. rewrite parse_lines_app, Hpre. simpl. rewrite Hstep. simpl.
    intros Hrun.
    set (st1 := {| coverage := _; current_file := Some "" |}) in Hrun.
    assert (Hfin : is_Some (Dict.get "" (coverage fin)) /\ blank_zero (coverage fin)).
    { apply (parse_lines_preserves
               (fun st => is_Some (Dict.get "" (coverage st)) /\ blank_zero (coverage st)))
        with rest st1; [| |done].
      - intros s0 r0 s1 [Hk Hb] Hs. split.
        + by eapply step_keeps_records.
        + by eapply step_blank_zero.
      - subst st1. simpl. rewrite Hget. split; [eauto|].
        intros s. rewrite Hget. by intros [= <-]. }
    destruct Hfin as [[s Hs] Hb]. rewrite Hs. f_equal. by apply Hb.
Qed.

Lemma blank_sf_line_witness :
  exists st',
    @process_line demo_host init " SF: " = Ret st' /\
    current_file st' = Some "" /\
    Dict.get "" (coverage st') = Some zero_stats /\
    @parse_lines demo_host st' ["DA:1,1"; "DA:2,x"; "SF:"] = Ret st' /\
    forall rest fin,
      @parse_lines demo_host init ([] ++ " SF: " :: rest) = Ret fin ->
      Dict.get "" (coverage fin) = Some zero_stats.
Proof.
  apply (@blank_sf_line demo_host [] init " SF: " ["DA:1,1"; "DA:2,x"; "SF:"]);
    try reflexivity.
  repeat (apply List.Forall_cons; [first [left; reflexivity|right; reflexivity]|]).
  apply List.Forall_nil.
Defined.

(** ** Stripping (C10) *)

Lemma rstrip_cons_nonspace c s :
  Py.is_space c = false -> Py.rstrip (String c s) = String c (Py.rstrip s).
Proof. intros Hc. simpl. destruct (Py.rstrip s); by rewrite ?Hc. Qed.

Lemma rstrip_length s : (String.length (Py.rstrip s) <= String.length s)%nat.
Proof.
  induction s as [|c s IH]; simpl; [done|].
  destruct (Py.rstrip s); [destruct (Py.is_space c)|]; simpl in *; lia.
Qed.

Lemma string_length_app s t :
  String.length (s ++ t) = (String.length s + String.length t)%nat.
Proof. induction s as [|c s IH]; [done|]. rewrite string_app_cons. simpl. by rewrite IH. Qed.

Lemma rstrip_fixed_last p q c :
  Py.rstrip p = p -> p = q ++ String c "" -> Py.is_space c = false.
Proof.
  intros Hp ->. destruct (Py.is_space c) eqn:Hc; [|done].
  rewrite rstrip_app_space in Hp by (simpl; by rewrite Hc).
  pose proof (rstrip_length q) as Hlen. rewrite Hp, string_length_app in Hlen.
  simpl in Hlen. lia.
Qed.

Lemma strip_marker m1 m2 m3 r :
  Py.is_space m1 = false -> Py.is_space m2 = false -> Py.is_space m3 = false ->
  Py.strip (String m1 (String m2 (String m3 r))) =
  String m1 (String m2 (String m3 (Py.rstrip r))).
Proof.
  intros H1 H2 H3. unfold Py.strip. rewrite lstrip_nonspace by done.
  by rewrite !rstrip_cons_nonspace.
Qed.

Lemma process_line_strip `{Host} (st : pstate) (raw : string) :
  process_line st (Py.strip raw) = process_line st raw.
Proof. unfold process_line. by rewrite strip_idem. Qed.

(** C10.  The loop looks at the stripped line only: white space around
    a line changes nothing, so a line whose [SF:] or [DA:] marker comes
    after white space is still a record of that kind; and the path taken
    from a source-file record does not end in white space. *)
Theorem lines_are_stripped `{Host} (st : pstate) (raw ws1 ws2 : string) :
  all_space ws1 = true -> all_space ws2 = true ->
  process_line st (ws1 ++ raw ++ ws2) = process_line st raw /\
  process_line st (Py.strip raw) = process_line st raw /\
  (Py.startswith raw "SF:" = true -> is_sf (ws1 ++ raw ++ ws2) = true) /\
  (Py.startswith raw "DA:" = true -> is_da (ws1 ++ raw ++ ws2) = true) /\
  (is_sf raw = true ->
   forall q c, Py.slice_from 3 (Py.strip raw) = q ++ String c "" ->
               Py.is_space c = false).
Proof.
  intros H1 H2.
  assert (Hs : Py.strip (ws1 ++ raw ++ ws2) = Py.strip raw)
    by by apply strip_space_around.
  split_and!.
  - rewrite <- process_line_strip, Hs. apply process_line_strip.
  - apply process_line_strip.
  - intros Hsf%startswith_app. unfold is_sf. rewrite Hs.
    set (r := Py.slice_from (String.length "SF:") raw) in Hsf. clearbody r. subst raw.
    change ("SF:" ++ r) with (String "S" (String "F" (String ":" r))).
    rewrite strip_marker by reflexivity. apply (startswith_app_true "SF:").
  - intros Hda%startswith_app. unfold is_da. rewrite Hs.
    set (r := Py.slice_from (String.length "DA:") raw) in Hda. clearbody r. subst raw.
    change ("DA:" ++ r) with (String "D" (String "A" (String ":" r))).
    rewrite strip_marker by reflexivity. apply (startswith_app_true "DA:").
  - intros Hsf q c. apply rstrip_fixed_last.
    unfold is_sf in Hsf. apply startswith_app in Hsf. simpl String.length in Hsf.
    assert (Hfix : Py.rstrip (Py.strip raw) = Py.strip raw) by apply rstrip_idem.
    set (p := Py.slice_from 3 (Py.strip raw)) in *. clearbody p.
    rewrite Hsf in Hfix.
    change ("SF:" ++ ?x) with (String "S" (String "F" (String ":" x))) in Hfix.
    rewrite !rstrip_cons_nonspace in Hfix by reflexivity. by simplify_eq.
Qed.

Lemma lines_are_stripped_witness :
  let tab := String "009" "" in
  @process_line demo_host init (tab ++ "SF:lib/a.c" ++ "  ") =
    @process_line demo_host init "SF:lib/a.c" /\
  @process_line demo_host init (Py.strip "SF:lib/a.c") =
    @process_line demo_host init "SF:lib/a.c" /\
  (Py.startswith "SF:lib/a.c" "SF:" = true -> is_sf (tab ++ "SF:lib/a.c" ++ "  ") = true) /\
  (Py.startswith "SF:lib/a.c" "DA:" = true -> is_da (tab ++ "SF:lib/a.c" ++ "  ") = true) /\
  (is_sf "SF:lib/a.c" = true ->
   forall q c, Py.slice_from 3 (Py.strip "SF:lib/a.c") = q ++ String c "" ->
               Py.is_space c = false).
Proof.
  apply (@lines_are_stripped demo_host init "SF:lib/a.c" (String "009" "") "  ");
    reflexivity.
Defined.

(** ** A file that cannot be opened (C2) *)

Section main_facts.
Context `{Host}.

Lemma run_path prog path rest :
  run (prog :: path :: rest) =
    match parse_lcov path [] with
    | (out, Ret cov) => print_report cov out
    | (out, Raise e) => (out, Raise e)
    end.
Proof. done. Qed.
End main_facts.

(** C2, as stated, fails: [locked.info] cannot be opened
    ([PermissionError]); the program prints nothing, neither an error
    message nor a report, and ends on the uncaught exception. *)
Lemma unreadable_file_not_reported :
  @open_file demo_host "locked.info" = OpenError PermissionError /\
  os_error PermissionError = true /\
  @run demo_host ["analyze_coverage.py"; "locked.info"] = ([], Raise PermissionError) /\
  @parse_lcov demo_host "locked.info" [] = ([], Raise PermissionError) /\
  @run demo_host ["analyze_coverage.py"; "locked.info"]
    <> ([Text "Error: File locked.info not found."], Raise (SystemExit 1)).
Proof. by repeat split. Qed.

(** C2, amended.  When the file cannot be opened, the program ends
    with status 1 and neither returns a table nor prints a report.  If
    the failure is [FileNotFoundError], it prints one line, an error
    message that names the path, and leaves through [sys.exit(1)].  Any
    other failure is not caught: the program prints nothing and the
    exception leaves [parse_lcov] and the program. *)
Theorem missing_file_reported `{Host} (prog path : string) (rest : list string) (e : exn) :
  open_file path = OpenError e ->
  os_error e = true ->
  exit_status (run (prog :: path :: rest)).2 = 1 /\
  (e = FileNotFoundError ->
     parse_lcov path [] =
       ([Text ("Error: File " ++ path ++ " not found.")], Raise (SystemExit 1)) /\
     run (prog :: path :: rest) =
       ([Text ("Error: File " ++ path ++ " not found.")], Raise (SystemExit 1)) /\
     render (Text ("Error: File " ++ path ++ " not found."))
       = Ret ("Error: File " ++ path ++ " not found.")) /\
  (e <> FileNotFoundError ->
     parse_lcov path [] = ([], Raise e) /\
     run (prog :: path :: rest) = ([], Raise e)).
Proof.
  intros Hopen Hos.
  assert (Hmiss : e = FileNotFoundError ->
            run (prog :: path :: rest) =
              ([Text ("Error: File " ++ path ++ " not found.")], Raise (SystemExit 1))).
  { intros ->. by rewrite run_path, (parse_lcov_missing path []). }
  assert (Hother : e <> FileNotFoundError -> run (prog :: path :: rest) = ([], Raise e)).
  { intros He. by rewrite run_path, (parse_lcov_open_error path [] e). }
  split_and!.
  - destruct e; try done; [by rewrite Hmiss|by rewrite Hother..].
  - intros ->. split_and!; [by apply parse_lcov_missing|auto|done].
  - intros He. split; [by apply parse_lcov_open_error|auto].
Qed.

Lemma missing_file_reported_witness :
  exit_status (@run demo_host ["analyze_coverage.py"; "nope.info"]).2 = 1 /\
  (FileNotFoundError = FileNotFoundError ->
     @parse_lcov demo_host "nope.info" [] =
       ([Text ("Error: File " ++ "nope.info" ++ " not found.")], Raise (SystemExit 1)) /\
     @run demo_host ["analyze_coverage.py"; "nope.info"] =
       ([Text ("Error: File " ++ "nope.info" ++ " not found.")], Raise (SystemExit 1)) /\
     render (Text ("Error: File " ++ "nope.info" ++ " not found."))
       = Ret ("Error: File " ++ "nope.info" ++ " not found.")) /\
  (FileNotFoundError <> FileNotFoundError ->
     @parse_lcov demo_host "nope.info" [] = ([], Raise FileNotFoundError) /\
     @run demo_host ["analyze_coverage.py"; "nope.info"] = ([], Raise FileNotFoundError)).
Proof.
  apply (@missing_file_reported demo_host "analyze_coverage.py" "nope.info" []);
    reflexivity.
Defined.

(** ** Sections of one file (C5) *)

Section section_facts.
Context `{Host}.

Lemma line_covered_zero key raw : line_total key raw = 0 -> line_covered key raw = 0.
Proof.
  unfold line_covered. intros ->.
  destruct (fields raw) as [|x [|field rest]]; [done..|].
  destruct (Py.int field) as [count|]; [|done]. by destruct (0 <? count).
Qed.

Lemma parse_lines_app_ret st l1 l2 st' :
  parse_lines st (l1 ++ l2) = Ret st' ->
  exists mid, parse_lines st l1 = Ret mid /\ parse_lines mid l2 = Ret st'.
Proof.
  rewrite parse_lines_app. destruct (parse_lines st l1) as [mid|]; [eauto|done].
Qed.

Lemma bump_zero s : bump s 0 0 = s.
Proof. destruct s as [t c]. unfold bump. simpl. f_equal; lia. Qed.

Lemma bump_bump s t1 c1 t2 c2 : bump (bump s t1 c1) t2 c2 = bump s (t1 + t2) (c1 + c2).
Proof. unfold bump. simpl. f_equal; lia. Qed.

(** The lines of a section after its [SF:] line: they add their counts
    to the record of the current file and touch nothing else. *)
Lemma section_body_run body : forall st st' f s,
  Forall (fun raw => is_sf raw = false) body ->
  current_file st = Some f -> Dict.get f (coverage st) = Some s ->
  parse_lines st body = Ret st' ->
  current_file st' = Some f /\
  Dict.keys (coverage st') = Dict.keys (coverage st) /\
  Dict.get f (coverage st') =
    Some (bump s (zsum (map (line_total f) body)) (zsum (map (line_covered f) body))) /\
  forall g, g <> f -> Dict.get g (coverage st') = Dict.get g (coverage st).
Proof.
  induction body as [|raw body IH]; intros st st' f s Hbody Hcf Hs; simpl.
  - intros [= <-]. by rewrite bump_zero.
  - apply Forall_cons in Hbody as [Hraw Hbody].
    destruct (process_line st raw) as [st1|] eqn:Hp; simpl; [|done].
    intros Hrun. apply process_line_step in Hp.
    destruct Hp as [Hsf|Hsf Hskip|f0 s0 x field rest count Hda Hcf0 Hf0 Hs0 Hfields Hint].
    + congruence.
    + assert (Ht : line_total f raw = 0).
      { unfold line_total. rewrite Hcf, truthy_Some in Hskip.
        destruct Hskip as [->|[->|Hlen]]; [by rewrite Hsf| |].
        - by rewrite andb_false_r.
        - apply Nat.leb_gt in Hlen. rewrite Hlen. by rewrite andb_false_r. }
      rewrite Ht, (line_covered_zero _ _ Ht), !Z.add_0_l. by apply IH.
    + assert (f0 = f) as -> by congruence. assert (s0 = s) as -> by congruence.
      assert (Ht : line_total f raw = 1).
      { unfold line_total. rewrite Hraw, Hda, Hfields. simpl.
        by destruct (String.eqb_spec f ""). }
      assert (Hc : line_covered f raw = if 0 <? count then 1 else 0).
      { unfold line_covered. rewrite Hfields, Hint, Ht. done. }
      rewrite Ht, Hc.
      eapply IH in Hrun as (Hcf' & Hkeys & Hget & Hother); [|done|done|simpl].
      2:{ apply dict_get_set_eq. }
      simpl in *. split_and!; [done| | |].
      * rewrite Hkeys. apply dict_keys_set_mem, dict_mem_get. eauto.
      * rewrite Hget. f_equal. unfold bump. simpl. f_equal; lia.
      * intros g Hg. rewrite Hother by done. by apply dict_get_set_ne.
Qed.

(** The table after a run of sections, record by record. *)
Lemma sections_run secs : forall st0 st p,
  Forall section_ok secs ->
  parse_lines st0 (concat (map section_lines secs)) = Ret st ->
  Dict.get p (coverage st) =
    match Dict.get p (coverage st0) with
    | Some s =>
        Some (bump s (zsum (map section_total (sections_of p secs)))
                     (zsum (map section_covered (sections_of p secs))))
    | None =>
        if decide (p ∈ section_keys secs)
        then Some (bump zero_stats (zsum (map section_total (sections_of p secs)))
                                   (zsum (map section_covered (sections_of p secs))))
        else None
    end.
Proof.
  induction secs as [|sec secs IH]; intros st0 st p Hok; simpl.
  - intros [= <-]. destruct (Dict.get p (coverage st0)); [|done]. by rewrite bump_zero.
  - apply Forall_cons in Hok as [[Hsf Hbody] Hok].
    rewrite process_line_sf by done. simpl.
    intros (st2 & Hrun1 & Hrun2)%parse_lines_app_ret.
    set (key := sf_key sec.1) in *.
    set (cov1 := if Dict.mem key (coverage st0) then coverage st0
                 else Dict.set key zero_stats (coverage st0)) in *.
    assert (Hkey : Dict.get key cov1 =
                   Some (default zero_stats (Dict.get key (coverage st0)))).
    { subst cov1. destruct (Dict.mem key (coverage st0)) eqn:Hm.
      - apply dict_mem_get in Hm as [s Hs]. by rewrite Hs.
      - rewrite dict_get_set_eq. apply dict_mem_false in Hm. by rewrite Hm. }
    assert (Hoth : forall g, g <> key -> Dict.get g cov1 = Dict.get g (coverage st0)).
    { intros g Hg. subst cov1. destruct (Dict.mem key (coverage st0)); [done|].
      by apply dict_get_set_ne. }
    eapply section_body_run in Hrun1 as (_ & _ & Hget & Hother); [|done|done|exact Hkey].
    rewrite (IH st2 st p Hok Hrun2).
    unfold sections_of. rewrite filter_cons. fold (sections_of p secs). fold key.
    destruct (decide (key = p)) as [Hp|Hp].
    + subst p. rewrite Hget. simpl. rewrite bump_bump.
      fold (section_total sec) (section_covered sec).
      destruct (Dict.get key (coverage st0)) as [s|]; simpl; [done|].
      rewrite decide_True by (left; reflexivity). done.
    + rewrite Hother, Hoth by done.
      destruct (Dict.get p (coverage st0)); [done|].
      destruct (decide (p ∈ section_keys secs)) as [Hin|Hin].
      * rewrite decide_True; [done|]. by right.
      * rewrite decide_False; [done|]. intros [?|?]%elem_of_cons; done.
Qed.
End section_facts.

(** C5.  Let the input be any lines without source-file record,
    followed by sections.  For a path [p] that at least one section
    names, the table returned has one binding per key, exactly one for
    [p], and gives [p] a record whose counts are the sums of what the
    sections naming [p] contribute.  And a source-file record for a path already in the
    table leaves the table as it is. *)
Theorem sections_accumulate `{Host} :
  (forall (pre : list string) (secs : list section) (fin : pstate) (p : string),
     Forall (fun raw => is_sf raw = false) pre ->
     Forall section_ok secs ->
     parse_lines init (pre ++ concat (map section_lines secs)) = Ret fin ->
     p ∈ section_keys secs ->
     Dict.wf (coverage fin) /\
     count_occ string_dec (Dict.keys (coverage fin)) p = 1%nat /\
     Dict.get p (coverage fin) =
       Some {| total := zsum (map section_total (sections_of p secs));
               covered := zsum (map section_covered (sections_of p secs)) |}) /\
  (forall (st : pstate) (raw : string),
     is_sf raw = true -> Dict.mem (sf_key raw) (coverage st) = true ->
     process_line st raw =
       Ret {| coverage := coverage st; current_file := Some (sf_key raw) |}).
Proof.
  split.
  - intros pre secs fin p Hpre Hsecs Hrun Hp.
    apply parse_lines_app_ret in Hrun as (mid & Hrun0 & Hrun).
    rewrite parse_lines_no_sf in Hrun0 by done. injection Hrun0 as <-.
    assert (Hget : Dict.get p (coverage fin) =
              Some {| total := zsum (map section_total (sections_of p secs));
                      covered := zsum (map section_covered (sections_of p secs)) |}).
    { rewrite (sections_run secs init fin p Hsecs Hrun). simpl.
      rewrite decide_True by done. unfold bump. simpl. done. }
    assert (Hwf : Dict.wf (coverage fin)).
    { eapply parse_lines_linked in Hrun as [Hwf _]; [done|apply init_linked]. }
    split_and!; [done| |done].
    apply NoDup_count_occ'; [by apply NoDup_ListNoDup|].
    apply list_elem_of_In, dict_get_elem_of. rewrite Hget. eauto.
  - intros st raw Hsf Hm. rewrite process_line_sf by done. by rewrite Hm.
Qed.

Lemma sections_accumulate_witness :
  Dict.wf [("a.c", {| total := 3; covered := 2 |}); ("b.c", {| total := 1; covered := 0 |})] /\
  count_occ string_dec
    (Dict.keys [("a.c", {| total := 3; covered := 2 |}); ("b.c", {| total := 1; covered := 0 |})])
    "a.c" = 1%nat /\
  Dict.get "a.c"
    [("a.c", {| total := 3; covered := 2 |}); ("b.c", {| total := 1; covered := 0 |})] =
    Some {| total := zsum (map (@section_total demo_host)
                             (@sections_of demo_host "a.c"
                                [("SF:a.c", ["DA:1,1"; "DA:2,0"]);
                                 ("SF:b.c", ["DA:1,0"; "end_of_record"]);
                                 ("SF:C:/work/a.c", ["DA:9,4"; "DA:"])]));
            covered := zsum (map (@section_covered demo_host)
                               (@sections_of demo_host "a.c"
                                  [("SF:a.c", ["DA:1,1"; "DA:2,0"]);
                                   ("SF:b.c", ["DA:1,0"; "end_of_record"]);
                                   ("SF:C:/work/a.c", ["DA:9,4"; "DA:"])])) |}.
Proof.
  apply (proj1 (@sections_accumulate demo_host) ["TN:"; "DA:1,1"]
           [("SF:a.c", ["DA:1,1"; "DA:2,0"]);
            ("SF:b.c", ["DA:1,0"; "end_of_record"]);
            ("SF:C:/work/a.c", ["DA:9,4"; "DA:"])]
           {| coverage := [("a.c", {| total := 3; covered := 2 |});
                           ("b.c", {| total := 1; covered := 0 |})];
              current_file := Some "a.c" |} "a.c").
  - repeat (apply List.Forall_cons; [reflexivity|]). apply List.Forall_nil.
  - repeat (apply List.Forall_cons;
            [split; [reflexivity|repeat (apply List.Forall_cons; [reflexivity|]);
                                 apply List.Forall_nil]|]).
    apply List.Forall_nil.
  - reflexivity.
  - vm_compute. apply list_elem_of_here.
Defined.

(** ** The report *)

Lemma print_text s out : print (Text s) out = ((out ++ [Text s])%list, Ret tt).
Proof. done. Qed.

Lemma float_of_int_100 :
  PyNum.float_of_int 100 = Ret (S754_finite false 7036874417766400 (-46)).
Proof. reflexivity. Qed.

Lemma format_int_0 : PyNum.format_6_2f (PyNum.Int 0) = Ret "  0.00".
Proof. reflexivity. Qed.

Lemma truediv_raise a b e :
  PyNum.truediv a b = Raise e ->
  (b = 0 /\ e = ZeroDivisionError) \/ (b <> 0 /\ e = OverflowError).
Proof.
  unfold PyNum.truediv. destruct (Z.eqb_spec b 0) as [->|Hb].
  - intros [= <-]. by left.
  - destruct (a =? 0); [done|].
    match goal with |- context [SFdiv ?p ?e ?x ?y] => destruct (SFdiv p e x y) end;
      try done.
    intros [= <-]. by right.
Qed.

(** The guard of [percentage]: the division is reached with a positive
    divisor only. *)
Lemma percentage_cases c l :
  (l <= 0 /\ percentage c l = Ret (PyNum.Int 0)) \/
  (0 < l /\ exists q, PyNum.truediv c l = Ret q /\
            percentage c l =
              Ret (PyNum.Float (SFmul PyNum.prec PyNum.emax q
                                  (S754_finite false 7036874417766400 (-46))))) \/
  (0 < l /\ PyNum.truediv c l = Raise OverflowError /\
   percentage c l = Raise OverflowError).
Proof.
  unfold percentage. destruct (Z.ltb_spec 0 l) as [Hl|Hl]; [|left; by split].
  right. destruct (PyNum.truediv c l) as [q|e] eqn:Hq.
  - left. split; [done|]. exists q. split; [done|]. reflexivity.
  - right. apply truediv_raise in Hq as [[-> _]|[_ ->]]; [lia|done].
Qed.

Lemma percentage_not_zero_division c l : percentage c l <> Raise ZeroDivisionError.
Proof.
  destruct (percentage_cases c l) as [[_ ->]|[(_ & q & _ & ->)|(_ & _ & ->)]]; done.
Qed.

Lemma percentage_renders c l p :
  percentage c l = Ret p -> exists txt, PyNum.format_6_2f p = Ret txt.
Proof.
  destruct (percentage_cases c l) as [[_ ->]|[(_ & q & _ & ->)|(_ & _ & ->)]];
    [| |done]; intros [= <-]; simpl; eauto.
Qed.

Lemma print_row_percentage f c l p out :
  percentage c l = Ret p ->
  print (FileRow f l c p) out = ((out ++ [FileRow f l c p])%list, Ret tt) /\
  print (TotalRow l c p) out = ((out ++ [TotalRow l c p])%list, Ret tt).
Proof.
  intros [txt Htxt]%percentage_renders. unfold print, render, render_row.
  by rewrite Htxt.
Qed.

Lemma report_file_cases cov acc f out :
  (Dict.get f cov = None /\ report_file cov acc f out = (out, Raise KeyError)) \/
  (exists s, Dict.get f cov = Some s /\
     percentage (covered s) (total s) = Raise OverflowError /\
     report_file cov acc f out = (out, Raise OverflowError)) \/
  (exists s p, Dict.get f cov = Some s /\
     percentage (covered s) (total s) = Ret p /\
     report_file cov acc f out =
       ((out ++ [FileRow f (total s) (covered s) p])%list,
        Ret (acc.1 + total s, acc.2 + covered s))).
Proof.
  unfold report_file, Dict.getitem, mbind, io_bind, lift.
  destruct (Dict.get f cov) as [s|]; [right|by left].
  destruct (percentage_cases (covered s) (total s))
    as [[_ Hp]|[(_ & q & _ & Hp)|(_ & _ & Hp)]]; rewrite Hp.
  - right. eexists s, _. split_and!; [done..|].
    by rewrite (proj1 (print_row_percentage f _ _ _ out Hp)).
  - right. eexists s, _. split_and!; [done..|].
    by rewrite (proj1 (print_row_percentage f _ _ _ out Hp)).
  - left. by exists s.
Qed.

(** The loop over the sorted files: the rows written are those of a
    prefix of the files, of all of them when the loop returns. *)
Lemma for_each_report cov files : forall acc out out' r,
  for_each (report_file cov) acc files out = (out', r) ->
  exists fs rows,
    out' = (out ++ rows)%list /\
    Forall2 (row_of cov) fs rows /\
    fs `prefix_of` files /\
    match r with
    | Ret acc' =>
        fs = files /\
        acc' = (acc.1 + zsum (map row_lines rows), acc.2 + zsum (map row_covered rows))
    | Raise e => e = KeyError \/ e = OverflowError
    end.
Proof.
  induction files as [|f files IH]; intros acc out out' r; simpl.
  - intros [= <- <-]. exists [], []. rewrite app_nil_r.
    split; [done|]. split; [constructor|]. split; [done|].
    split; [done|]. destruct acc. simpl. f_equal; lia.
  - unfold mbind, io_bind.
    destruct (report_file_cases cov acc f out)
      as [[_ ->]|[(s & _ & _ & ->)|(s & p & Hs & Hp & ->)]].
    + intros [= <- <-]. exists [], []. rewrite app_nil_r.
      split_and!; [done|constructor|apply prefix_nil|by left].
    + intros [= <- <-]. exists [], []. rewrite app_nil_r.
      split_and!; [done|constructor|apply prefix_nil|by right].
    + intros (fs & rows & -> & Hrows & Hpre & Hr)%IH.
      exists (f :: fs), (FileRow f (total s) (covered s) p :: rows).
      rewrite <- app_assoc. split; [done|]. split; [|split; [by apply prefix_cons|]].
      * constructor; [|done]. by exists s, p.
      * destruct r as [acc'|e]; [|done]. destruct Hr as [-> ->]. split; [done|].
        simpl. f_equal; lia.
Qed.

Lemma row_of_files cov fs rows : Forall2 (row_of cov) fs rows -> row_files rows = fs.
Proof.
  induction 1 as [|f o fs rows (s & p & _ & _ & ->) _ IH]; [done|].
  change (f :: row_files rows = f :: fs). by rewrite IH.
Qed.

Lemma row_files_app out1 out2 : row_files (out1 ++ out2) = (row_files out1 ++ row_files out2)%list.
Proof. apply omap_app. Qed.

(** What [print_report] writes and how it ends. *)
Lemma print_report_cases cov out :
  exists fs rows,
    Forall2 (row_of cov) fs rows /\
    fs `prefix_of` sorted (Dict.keys cov) /\
    ((exists tp,
        fs = sorted (Dict.keys cov) /\
        percentage (zsum (map row_covered rows)) (zsum (map row_lines rows)) = Ret tp /\
        print_report cov out =
          ((out ++ [Text header; Text rule] ++ rows
              ++ [Text rule;
                  TotalRow (zsum (map row_lines rows)) (zsum (map row_covered rows)) tp])%list,
           Ret tt)) \/
     (exists e tail,
        (e = KeyError \/ e = OverflowError) /\ row_files tail = [] /\
        print_report cov out =
          ((out ++ [Text header; Text rule] ++ rows ++ tail)%list, Raise e))).
Proof.
  unfold print_report, mbind, io_bind. rewrite !print_text.
  destruct (for_each (report_file cov) (0, 0) (sorted (Dict.keys cov))
              ((out ++ [Text header]) ++ [Text rule])%list) as [out' r] eqn:Hloop.
  apply for_each_report in Hloop as (fs & rows & -> & Hrows & Hpre & Hr).
  exists fs, rows. split_and!; [done..|].
  destruct r as [acc|e].
  - destruct Hr as [-> ->]. rewrite print_text. simpl. rewrite !Z.add_0_l. unfold lift.
    destruct (percentage_cases (zsum (map row_covered rows)) (zsum (map row_lines rows)))
      as [[_ Hp]|[(_ & q & _ & Hp)|(_ & _ & Hp)]]; rewrite Hp.
    + left. eexists. split_and!; [done..|].
      rewrite (proj2 (print_row_percentage "" _ _ _ _ Hp)).
      by rewrite <- !app_assoc.
    + left. eexists. split_and!; [done..|].
      rewrite (proj2 (print_row_percentage "" _ _ _ _ Hp)).
      by rewrite <- !app_assoc.
    + right. exists OverflowError, [Text rule]. split_and!; [by right|done|].
      by rewrite <- !app_assoc.
  - right. exists e, []. split_and!; [done..|]. by rewrite <- !app_assoc, app_nil_r.
Qed.

(** ** The quotient of two counts is a finite float *)

Lemma digits2_lower p : 2 ^ (Z.pos (digits2_pos p) - 1) <= Z.pos p.
Proof.
  induction p as [p IH|p IH|]; simpl digits2_pos; [| |done].
  all: rewrite Pos2Z.inj_succ;
    replace (Z.succ (Z.pos (digits2_pos p)) - 1) with (Z.succ (Z.pos (digits2_pos p) - 1)) by lia;
    rewrite Z.pow_succ_r by lia; lia.
Qed.

Lemma Zdigits2_le_pow m k : 0 <= k -> 0 <= m <= 2 ^ k -> Zdigits2 m <= k + 1.
Proof.
  intros Hk [Hm Hmk]. destruct m as [|p|p]; simpl; [lia| |lia].
  pose proof (digits2_lower p) as Hlow.
  assert (Hpow : 2 ^ (Z.pos (digits2_pos p) - 1) <= 2 ^ k) by lia.
  apply Z.pow_le_mono_r_iff in Hpow; lia.
Qed.

Lemma shr_1_m mrs : 0 <= shr_m mrs -> 0 <= shr_m (shr_1 mrs) <= shr_m mrs.
Proof. destruct mrs as [[|[p|p|]|[p|p|]] r s]; simpl; lia. Qed.

Lemma iter_pos_shr_1_m n : forall mrs,
  0 <= shr_m mrs -> 0 <= shr_m (SpecFloat.iter_pos shr_1 n mrs) <= shr_m mrs.
Proof.
  induction n as [n IH|n IH|]; intros mrs Hm; simpl.
  - pose proof (shr_1_m mrs Hm). pose proof (IH (shr_1 mrs) ltac:(lia)).
    pose proof (IH (SpecFloat.iter_pos shr_1 n (shr_1 mrs)) ltac:(lia)). lia.
  - pose proof (IH mrs Hm). pose proof (IH (SpecFloat.iter_pos shr_1 n mrs) ltac:(lia)). lia.
  - by apply shr_1_m.
Qed.

Lemma shr_fexp_bounds m e l :
  0 <= m ->
  0 <= shr_m (shr_fexp PyNum.prec PyNum.emax m e l).1 <= m /\
  (shr_fexp PyNum.prec PyNum.emax m e l).2
    = Z.max e (fexp PyNum.prec PyNum.emax (Zdigits2 m + e)).
Proof.
  intros Hm. unfold shr_fexp, shr.
  assert (Hrec : shr_m (shr_record_of_loc m l) = m) by by destruct l as [|[]].
  destruct (fexp PyNum.prec PyNum.emax (Zdigits2 m + e) - e) as [|n|n] eqn:Hn; simpl.
  - rewrite Hrec. lia.
  - pose proof (iter_pos_shr_1_m n (shr_record_of_loc m l)) as Hit.
    rewrite Hrec in Hit. split; [auto|lia].
  - rewrite Hrec. lia.
Qed.

Lemma round_nearest_even_bounds m l : m <= round_nearest_even m l <= m + 1.
Proof. destruct l as [|[]]; simpl; try lia. destruct (Z.even m); lia. Qed.

Lemma fexp_eq e : fexp PyNum.prec PyNum.emax e = Z.max (e - 53) (-1074).
Proof. reflexivity. Qed.

Lemma SFdiv_le_finite (sa sb : bool) (a b : positive) :
  (a <= b)%positive ->
  forall s, SFdiv PyNum.prec PyNum.emax (S754_finite sa a 0) (S754_finite sb b 0)
            <> S754_infinity s.
Proof.
  intros Hab s. unfold SFdiv, SFdiv_core_binary.
  set (e' := Z.min _ _).
  assert (He' : -1074 <= e' <= 0) by (subst e'; rewrite fexp_eq; lia).
  set (m' := match 0 - 0 - e' with Z0 => Z.pos a | Zpos _ => _ | Zneg _ => _ end).
  assert (Hm' : m' = Z.pos a * 2 ^ (- e')).
  { subst m'. destruct (0 - 0 - e') as [|n|n] eqn:Hs; [|rewrite Z.shiftl_mul_pow2|]; [| |lia|lia].
    - replace (- e') with 0 by lia. lia.
    - by replace (- e') with (Z.pos n) by lia. }
  destruct (Z.div_eucl m' (Z.pos b)) as [q r] eqn:Hdiv.
  assert (Hq : q = m' / Z.pos b) by (unfold Z.div; by rewrite Hdiv).
  assert (Hpow : 0 < 2 ^ (- e')) by (apply Z.pow_pos_nonneg; lia).
  assert (Hqb : 0 <= q <= 2 ^ (- e')).
  { subst q. split.
    - apply Z.div_pos; lia.
    - apply Z.div_le_upper_bound; [lia|]. rewrite Hm'. nia. }
  unfold binary_round_aux.
  pose proof (shr_fexp_bounds q e' (new_location (Z.pos b) r) ltac:(lia)) as [Hm1 He1].
  destruct (shr_fexp PyNum.prec PyNum.emax q e' (new_location (Z.pos b) r)) as [mrs1 e1].
  simpl in Hm1, He1.
  pose proof (round_nearest_even_bounds (shr_m mrs1) (loc_of_shr_record mrs1)) as Hrne.
  set (m1 := round_nearest_even (shr_m mrs1) (loc_of_shr_record mrs1)) in *.
  pose proof (shr_fexp_bounds m1 e1 loc_Exact ltac:(lia)) as [Hm2 He2].
  destruct (shr_fexp PyNum.prec PyNum.emax m1 e1 loc_Exact) as [mrs2 e2].
  simpl in Hm2, He2.
  destruct (shr_m mrs2) as [|m2|m2]; [done| |done].
  assert (Hdq : Zdigits2 q <= - e' + 1) by (apply Zdigits2_le_pow; lia).
  assert (Hdm : Zdigits2 m1 <= - e' + 2).
  { replace (- e' + 2) with ((- e' + 1) + 1) by lia. apply Zdigits2_le_pow; [lia|].
    rewrite Z.pow_add_r, Z.pow_1_r by lia. lia. }
  rewrite fexp_eq in He1, He2.
  assert (He2' : e2 <= 971) by lia.
  apply Z.leb_le in He2'. unfold PyNum.emax, PyNum.prec.
  change (1024 - 53) with 971. by rewrite He2'.
Qed.

Lemma truediv_counts c l : 0 <= c <= l -> 0 < l -> exists q, PyNum.truediv c l = Ret q.
Proof.
  intros Hc Hl. unfold PyNum.truediv.
  destruct (Z.eqb_spec l 0); [lia|]. destruct (Z.eqb_spec c 0); [eauto|].
  pose proof (SFdiv_le_finite (c <? 0) (l <? 0) (Z.to_pos (Z.abs c)) (Z.to_pos (Z.abs l))
                ltac:(lia)) as Hfin.
  destruct (SFdiv _ _ _ _); eauto. by destruct (Hfin s).
Qed.

Lemma percentage_counts c l : 0 <= c <= l -> exists p, percentage c l = Ret p.
Proof.
  intros Hc. destruct (percentage_cases c l) as [[_ ->]|[(_ & q & _ & ->)|(Hl & Hq & _)]];
    [eauto..|].
  destruct (truediv_counts c l Hc Hl) as [q Hq']. congruence.
Qed.

(** ** The percentage is the quotient of the counts times 100

    The roundings of [SFdiv] and [SFmul] followed on integers: a
    rounding shifts the mantissa right, adds at most one and shifts
    again, so that the result is within one unit of its last place of
    what is rounded. *)

Lemma pow2_pos k : 0 <= k -> 0 < 2 ^ k.
Proof. intros. by apply Z.pow_pos_nonneg. Qed.

Lemma digits2_upper p : Z.pos p < 2 ^ Z.pos (digits2_pos p).
Proof.
  induction p as [p IH|p IH|]; simpl digits2_pos; [| |done].
  all: rewrite Pos2Z.inj_succ, Z.pow_succ_r by lia; lia.
Qed.

Lemma Zdigits2_mono a b : 0 < a <= b -> Zdigits2 a <= Zdigits2 b.
Proof.
  intros [Ha Hab]. destruct a as [|a|a]; [lia| |lia]. destruct b as [|b|b]; [lia| |lia].
  simpl. pose proof (digits2_lower a) as Hl. pose proof (digits2_upper b) as Hu.
  assert (Hpow : 2 ^ (Z.pos (digits2_pos a) - 1) < 2 ^ Z.pos (digits2_pos b)) by lia.
  apply Z.pow_lt_mono_r_iff in Hpow; lia.
Qed.

Lemma shr_1_half mrs : 0 <= shr_m mrs -> shr_m (shr_1 mrs) = shr_m mrs / 2.
Proof.
  intros Hm. rewrite <- Z.div2_div.
  destruct mrs as [[|[p|p|]|[p|p|]] r s]; simpl in *; try done; lia.
Qed.

Lemma iter_pos_shr_div n : forall mrs,
  0 <= shr_m mrs ->
  shr_m (SpecFloat.iter_pos shr_1 n mrs) = shr_m mrs / 2 ^ Z.pos n.
Proof.
  induction n as [n IH|n IH|]; intros mrs Hm; simpl SpecFloat.iter_pos.
  - pose proof (shr_1_m mrs Hm) as H1.
    pose proof (iter_pos_shr_1_m n (shr_1 mrs) ltac:(lia)) as H2.
    rewrite IH, IH, shr_1_half by lia.
    rewrite !Z.div_div by (try apply pow2_pos; lia).
    f_equal. rewrite Pos2Z.inj_xI. rewrite <- Z.pow_add_r, <- Z.pow_succ_r by lia.
    f_equal. lia.
  - pose proof (iter_pos_shr_1_m n mrs Hm) as H2.
    rewrite IH, IH by lia.
    rewrite !Z.div_div by (try apply pow2_pos; lia).
    f_equal. rewrite Pos2Z.inj_xO. rewrite <- Z.pow_add_r by lia. f_equal. lia.
  - by apply shr_1_half.
Qed.

Lemma shr_fexp_div m e l :
  0 <= m ->
  let n := Z.max 0 (fexp PyNum.prec PyNum.emax (Zdigits2 m + e) - e) in
  (shr_fexp PyNum.prec PyNum.emax m e l).2 = e + n /\
  shr_m (shr_fexp PyNum.prec PyNum.emax m e l).1 = m / 2 ^ n.
Proof.
  intros Hm n. subst n. unfold shr_fexp, shr.
  assert (Hrec : shr_m (shr_record_of_loc m l) = m) by by destruct l as [|[]].
  destruct (fexp PyNum.prec PyNum.emax (Zdigits2 m + e) - e) as [|n|n] eqn:Hn; simpl.
  - rewrite Hrec, Z.div_1_r. split; lia.
  - rewrite iter_pos_shr_div, Hrec by lia. split; [lia|done].
  - rewrite Hrec, Z.div_1_r. split; lia.
Qed.

Lemma binary_round_aux_spec sx mx ex lx D :
  0 <= mx -> ex <= D -> -1074 <= D -> mx <= 2 ^ (D - ex) ->
  exists m2 n,
    0 <= m2 /\ 0 <= n /\
    binary_round_aux PyNum.prec PyNum.emax sx mx ex lx = mk_float sx m2 (ex + n) /\
    mx - 2 ^ n < m2 * 2 ^ n <= mx + 2 ^ n /\
    ex + n <= Z.max ex (Z.max (D - 51) (-1074)).
Proof.
  intros Hmx HexD HD Hbound. unfold binary_round_aux.
  pose proof (shr_fexp_div mx ex lx Hmx) as [He1 Hm1].
  destruct (shr_fexp PyNum.prec PyNum.emax mx ex lx) as [mrs1 e1].
  simpl in He1, Hm1.
  set (n1 := Z.max 0 (fexp PyNum.prec PyNum.emax (Zdigits2 mx + ex) - ex)) in *.
  pose proof (round_nearest_even_bounds (shr_m mrs1) (loc_of_shr_record mrs1)) as Hrne.
  set (m1' := round_nearest_even (shr_m mrs1) (loc_of_shr_record mrs1)) in *.
  assert (Hn1 : 0 <= n1) by lia.
  pose proof (pow2_pos n1 Hn1) as HA.
  assert (Hm1pos : 0 <= shr_m mrs1) by (rewrite Hm1; apply Z.div_pos; lia).
  pose proof (shr_fexp_div m1' e1 loc_Exact ltac:(lia)) as [He2 Hm2].
  destruct (shr_fexp PyNum.prec PyNum.emax m1' e1 loc_Exact) as [mrs2 e2].
  simpl in He2, Hm2.
  set (n2 := Z.max 0 (fexp PyNum.prec PyNum.emax (Zdigits2 m1' + e1) - e1)) in *.
  assert (Hn2 : 0 <= n2) by lia.
  pose proof (pow2_pos n2 Hn2) as HB.
  exists (shr_m mrs2), (n1 + n2).
  assert (Hm2pos : 0 <= shr_m mrs2) by (rewrite Hm2; apply Z.div_pos; lia).
  split; [done|]. split; [lia|]. split.
  { replace (ex + (n1 + n2)) with e2 by lia. unfold mk_float.
    destruct (shr_m mrs2); [done| |done]. reflexivity. }
  split.
  { rewrite Z.pow_add_r by lia.
    pose proof (Z.mul_div_le mx (2 ^ n1) HA) as H1.
    pose proof (Z.mul_succ_div_gt mx (2 ^ n1) HA) as H2.
    pose proof (Z.mul_div_le m1' (2 ^ n2) HB) as H3.
    pose proof (Z.mul_succ_div_gt m1' (2 ^ n2) HB) as H4.
    rewrite <- Hm1 in H1, H2. rewrite <- Hm2 in H3, H4.
    set (A := 2 ^ n1) in *. set (B := 2 ^ n2) in *.
    set (m1 := shr_m mrs1) in *. set (m2 := shr_m mrs2) in *.
    clearbody A B m1 m2 m1'. clear -H1 H2 H3 H4 HA HB Hrne Hm1pos Hm2pos Hmx.
    split; nia. }
  (* exponent *)
  assert (Hn1def : n1 = Z.max 0 (Z.max (Zdigits2 mx + ex - 53) (-1074) - ex))
    by (subst n1; by rewrite fexp_eq).
  assert (Hn2def : n2 = Z.max 0 (Z.max (Zdigits2 m1' + e1 - 53) (-1074) - e1))
    by (subst n2; by rewrite fexp_eq).
  clearbody n1 n2.
  assert (Hd1 : Zdigits2 mx <= D - ex + 1) by (apply Zdigits2_le_pow; lia).
  assert (He1D : e1 <= D) by lia.
  assert (Hm1b : shr_m mrs1 <= 2 ^ (D - e1)).
  { rewrite Hm1. apply Z.div_le_upper_bound; [done|].
    rewrite <- Z.pow_add_r by lia. replace (n1 + (D - e1)) with (D - ex) by lia. done. }
  assert (Hd2 : Zdigits2 m1' <= (D - e1 + 1) + 1).
  { apply Zdigits2_le_pow; [lia|]. split; [lia|].
    rewrite Z.pow_add_r, Z.pow_1_r by lia.
    pose proof (pow2_pos (D - e1) ltac:(lia)). lia. }
  lia.
Qed.

Lemma SFdiv_le_spec (a b : positive) :
  (a <= b)%positive ->
  exists m e,
    0 <= m /\ -1074 <= e <= -51 /\
    SFdiv PyNum.prec PyNum.emax (S754_finite false a 0) (S754_finite false b 0)
      = mk_float false m e /\
    Z.abs (m * Z.pos b - Z.pos a * 2 ^ (- e)) <= 2 * Z.pos b.
Proof.
  intros Hab. unfold SFdiv, SFdiv_core_binary.
  set (e' := Z.min _ _).
  assert (He' : -1074 <= e' <= -53).
  { subst e'. rewrite fexp_eq.
    pose proof (Zdigits2_mono (Z.pos a) (Z.pos b) ltac:(lia)). lia. }
  set (m' := match 0 - 0 - e' with Z0 => Z.pos a | Zpos _ => _ | Zneg _ => _ end).
  assert (Hm' : m' = Z.pos a * 2 ^ (- e')).
  { subst m'. destruct (0 - 0 - e') as [|n|n] eqn:Hs; [|rewrite Z.shiftl_mul_pow2|]; [| |lia|lia].
    - replace (- e') with 0 by lia. lia.
    - by replace (- e') with (Z.pos n) by lia. }
  destruct (Z.div_eucl m' (Z.pos b)) as [q r] eqn:Hdiv.
  assert (Hq : q = m' / Z.pos b) by (unfold Z.div; by rewrite Hdiv).
  pose proof (pow2_pos (- e') ltac:(lia)) as Hpow.
  assert (Hqb : 0 <= q <= 2 ^ (- e')).
  { subst q. split.
    - apply Z.div_pos; lia.
    - apply Z.div_le_upper_bound; [lia|]. rewrite Hm'. nia. }
  assert (Hq0 : q <= 2 ^ (0 - e')) by (replace (0 - e') with (- e') by lia; lia).
  destruct (binary_round_aux_spec (xorb false false) q e' (new_location (Z.pos b) r) 0
              ltac:(lia) ltac:(lia) ltac:(lia) Hq0)
    as (m2 & n & Hm2 & Hn & -> & Hacc & Hexp).
  exists m2, (e' + n). split; [done|]. split; [lia|]. split; [done|].
  pose proof (Z.mul_div_le m' (Z.pos b) ltac:(lia)) as H1.
  pose proof (Z.mul_succ_div_gt m' (Z.pos b) ltac:(lia)) as H2.
  rewrite <- Hq, Hm' in H1, H2.
  replace (- e') with (- (e' + n) + n) in H1, H2 by lia.
  rewrite Z.pow_add_r in H1, H2 by lia.
  pose proof (pow2_pos n Hn) as HN. pose proof (pow2_pos (- (e' + n)) ltac:(lia)) as HX.
  set (N := 2 ^ n) in *. set (X := 2 ^ (- (e' + n))) in *.
  set (B := Z.pos b) in *. set (A := Z.pos a) in *.
  assert (HB : 0 < B) by (subst B; lia). assert (HA : 0 < A) by (subst A; lia).
  clearbody N X B A. clear -H1 H2 HN HX HB HA Hacc Hm2 Hqb.
  assert (Hup : m2 * B * N <= (A * X + B) * N) by nia.
  assert (Hlo : (A * X - 2 * B) * N < m2 * B * N) by nia.
  apply Z.mul_le_mono_pos_r in Hup; [|done].
  apply Z.mul_lt_mono_pos_r in Hlo; [|done].
  lia.
Qed.

Lemma SFmul_100_spec (m e a b : Z) :
  0 <= m -> -1074 <= e <= -51 -> 0 < a <= b ->
  Z.abs (m * b - a * 2 ^ (- e)) <= 2 * b ->
  exists m2 e2,
    0 <= m2 /\ -1200 <= e2 <= -43 /\
    SFmul PyNum.prec PyNum.emax (mk_float false m e)
      (S754_finite false 7036874417766400 (-46)) = mk_float false m2 e2 /\
    Z.abs (m2 * b - 100 * a * 2 ^ (- e2)) * 2 ^ 42 <= b * 2 ^ (- e2).
Proof.
  intros Hm He Hab Hacc.
  assert (HX : 2 ^ 51 <= 2 ^ (- e)) by (apply Z.pow_le_mono_r; lia).
  set (X := 2 ^ (- e)) in *.
  destruct m as [|p|p]; [| |lia].
  - exists 0, (-43). split; [done|]. split; [lia|]. split; [done|].
    change (2 ^ (- -43)) with (2 ^ 43). change (2 ^ 51) with 2251799813685248 in HX.
    change (2 ^ 42) with 4398046511104. change (2 ^ 43) with 8796093022208.
    clearbody X. assert (a * 2251799813685248 <= a * X) by nia. lia.
  - unfold mk_float at 1. replace (e <=? 971) with true by (symmetry; apply Z.leb_le; lia).
    unfold SFmul.
    assert (Hp : Z.pos p <= X + 2).
    { change (2 ^ 51) with 2251799813685248 in HX. clearbody X. nia. }
    assert (Hbound : Z.pos (p * 7036874417766400) <= 2 ^ (8 - (e + -46))).
    { replace (8 - (e + -46)) with (- e + 54) by lia. rewrite Z.pow_add_r by lia.
      fold X. rewrite Pos2Z.inj_mul. change (2 ^ 54) with 18014398509481984.
      change (2 ^ 51) with 2251799813685248 in HX. clearbody X. lia. }
    destruct (binary_round_aux_spec (xorb false false) (Z.pos (p * 7036874417766400))
                (e + -46) loc_Exact 8 ltac:(lia) ltac:(lia) ltac:(lia) Hbound)
      as (m2 & n & Hm2 & Hn & -> & Hr & Hexp).
    exists m2, (e + -46 + n). split; [done|]. split; [lia|]. split; [done|].
    assert (HX2 : 2 ^ 43 <= 2 ^ (- (e + -46 + n))) by (apply Z.pow_le_mono_r; lia).
    assert (HXN : 2 ^ (- (e + -46 + n)) * 2 ^ n = X * 2 ^ 46).
    { subst X. rewrite <- !Z.pow_add_r by lia. f_equal. lia. }
    pose proof (pow2_pos n Hn) as HN.
    set (X2 := 2 ^ (- (e + -46 + n))) in *. set (N := 2 ^ n) in *.
    rewrite Pos2Z.inj_mul in Hr. set (P := Z.pos p) in *.
    change (2 ^ 51) with 2251799813685248 in HX.
    change (2 ^ 43) with 8796093022208 in HX2.
    change (2 ^ 46) with 70368744177664 in HXN.
    change (2 ^ 42) with 4398046511104.
    change (Z.pos 7036874417766400) with (100 * 70368744177664) in Hr.
    clearbody X X2 N P. clear -Hr Hacc HX HX2 HXN HN Hab Hm2.
    apply (Z.mul_le_mono_pos_r _ _ N); [done|].
    set (T := m2 * b - 100 * a * X2).
    assert (HT : T * N = (m2 * N - P * (100 * 70368744177664)) * b
                         + 100 * 70368744177664 * (P * b - a * X)) by (subst T; nia).
    assert (HTN : Z.abs (T * N) <= N * b + 200 * 70368744177664 * b).
    { rewrite HT. nia. }
    assert (Habs : Z.abs T * N = Z.abs (T * N)) by (rewrite Z.abs_mul; lia).
    assert (H1 : b * N * 8796093022208 <= b * N * X2)
      by (apply Z.mul_le_mono_nonneg_l; [apply Z.mul_nonneg_nonneg|]; lia).
    assert (H2 : b * 2251799813685248 <= b * X)
      by (apply Z.mul_le_mono_nonneg_l; lia).
    assert (H3 : b * X2 * N = b * X * 70368744177664)
      by (rewrite <- !Z.mul_assoc; by rewrite HXN).
    replace (Z.abs T * 4398046511104 * N) with (Z.abs (T * N) * 4398046511104) by lia.
    rewrite H3. lia.
Qed.

Lemma near_mk_float m e num den :
  0 <= m -> e <= 0 ->
  Z.abs (m * den - num * 2 ^ (- e)) * 2 ^ 42 <= den * 2 ^ (- e) ->
  near (mk_float false m e) num den = true.
Proof.
  intros Hm He Hacc. unfold mk_float. destruct m as [|p|p]; [| |lia].
  - simpl. apply Z.leb_le. pose proof (pow2_pos (- e) ltac:(lia)) as HX.
    set (X := 2 ^ (- e)) in *. change (2 ^ 42) with 4398046511104 in *.
    clearbody X. rewrite Z.mul_0_l, Z.sub_0_l, Z.abs_opp, Z.abs_mul in Hacc.
    rewrite (Z.abs_eq X) in Hacc by lia.
    apply (Z.mul_le_mono_pos_r _ _ X); [done|]. lia.
  - replace (e <=? 971) with true by (symmetry; apply Z.leb_le; lia).
    unfold near. apply andb_true_intro. split; apply Z.leb_le; [lia|done].
Qed.

(** The quotient of two counts, times 100 *)
Lemma percentage_near c l :
  0 <= c <= l -> 0 < l ->
  exists x, percentage c l = Ret (PyNum.Float x) /\ near x (100 * c) l = true /\
    (exists m e, 0 <= m /\ -1200 <= e <= -43 /\ x = mk_float false m e /\
       Z.abs (m * l - 100 * c * 2 ^ (- e)) * 2 ^ 42 <= l * 2 ^ (- e)).
Proof.
  intros Hc Hl. unfold percentage. replace (0 <? l) with true by (symmetry; apply Z.ltb_lt; lia).
  unfold PyNum.truediv, PyNum.mul_int. rewrite float_of_int_100.
  destruct (Z.eqb_spec l 0); [lia|]. destruct (Z.eqb_spec c 0) as [->|Hc0].
  - replace (l <? 0) with false by (symmetry; apply Z.ltb_ge; lia).
    exists (S754_zero false). split; [done|]. split.
    + simpl. apply Z.leb_le. lia.
    + exists 0, (-43). split; [done|]. split; [lia|]. split; [done|].
      simpl. lia.
  - replace (c <? 0) with false by (symmetry; apply Z.ltb_ge; lia).
    replace (l <? 0) with false by (symmetry; apply Z.ltb_ge; lia).
    destruct (SFdiv_le_spec (Z.to_pos (Z.abs c)) (Z.to_pos (Z.abs l)) ltac:(lia))
      as (m & e & Hm & He & -> & Hacc).
    replace (Z.pos (Z.to_pos (Z.abs c))) with c in Hacc by lia.
    replace (Z.pos (Z.to_pos (Z.abs l))) with l in Hacc by lia.
    destruct (SFmul_100_spec m e c l Hm He ltac:(lia) Hacc)
      as (m2 & e2 & Hm2 & He2 & Hmul & Hacc2).
    exists (mk_float false m2 e2).
    assert (Hq : forall s, mk_float false m e <> S754_infinity s).
    { intros s. unfold mk_float. destruct m; [done| |done].
      replace (e <=? 971) with true by (symmetry; apply Z.leb_le; lia). done. }
    assert (Hret : forall q : PyNum.float, (forall s, q <> S754_infinity s) ->
              match q with
              | S754_zero s => Ret (S754_zero s)
              | S754_infinity _ => Raise OverflowError
              | S754_nan => Ret S754_nan
              | S754_finite s m0 e0 => Ret (S754_finite s m0 e0)
              end = @Ret PyNum.float q).
    { intros q Hq'. destruct q as [|s| |]; try done. by destruct (Hq' s). }
    rewrite Hret by done. simpl mbind. rewrite Hmul.
    split; [done|]. split; [apply near_mk_float; (done || lia)|].
    exists m2, e2. split_and!; (done || lia).
Qed.

Lemma round_hundredths_near (p : positive) (e : Z) :
  e < 0 ->
  2 * Z.abs (PyNum.round_hundredths p e * 2 ^ (- e) - 100 * Z.pos p) <= 2 ^ (- e).
Proof.
  intros He. unfold PyNum.round_hundredths.
  replace (0 <=? e) with false by (symmetry; apply Z.leb_gt; lia).
  pose proof (pow2_pos (- e) ltac:(lia)) as Hd. set (d := 2 ^ (- e)) in *.
  pose proof (Z.div_mod (Z.pos p * 100) d ltac:(lia)) as Hdm.
  pose proof (Z.mod_pos_bound (Z.pos p * 100) d Hd) as Hr.
  set (q := Z.pos p * 100 / d) in *. set (r := (Z.pos p * 100) mod d) in *.
  clearbody d q r.
  destruct (Z.compare_spec (2 * r) d) as [Heq|Hlt|Hgt]; [destruct (Z.even q)| |]; nia.
Qed.

Lemma hundredths_near m e c l :
  0 <= m -> e <= -43 -> 0 < l -> 0 <= c ->
  Z.abs (m * l - 100 * c * 2 ^ (- e)) * 2 ^ 42 <= l * 2 ^ (- e) ->
  nearest_hundredths (shown_hundredths (mk_float false m e)) c l = true.
Proof.
  intros Hm He Hl Hc Hacc. unfold nearest_hundredths. apply Z.leb_le.
  pose proof (pow2_pos (- e) ltac:(lia)) as HX.
  change (2 ^ 35) with 34359738368. change (2 ^ 34) with 17179869184.
  change (2 ^ 42) with 4398046511104 in Hacc.
  destruct m as [|p|p]; [| |lia].
  - simpl. set (X := 2 ^ (- e)) in *. clearbody X.
    assert (H : 100 * c * 4398046511104 * X <= l * X).
    { rewrite Z.mul_0_l, Z.sub_0_l, Z.abs_opp, Z.abs_eq in Hacc by nia. lia. }
    apply Z.mul_le_mono_pos_r in H; [|done]. lia.
  - unfold mk_float. replace (e <=? 971) with true by (symmetry; apply Z.leb_le; lia).
    simpl shown_hundredths.
    pose proof (round_hundredths_near p e ltac:(lia)) as Hn.
    set (n := PyNum.round_hundredths p e) in *. set (X := 2 ^ (- e)) in *.
    set (P := Z.pos p) in *. clearbody n X P.
    set (T := n * l - 10000 * c).
    assert (HT : T * X = (n * X - 100 * P) * l + 100 * (P * l - 100 * c * X))
      by (subst T; lia).
    assert (H1 : 2 * Z.abs ((n * X - 100 * P) * l) <= X * l).
    { rewrite Z.abs_mul, (Z.abs_eq l) by lia. nia. }
    assert (Habs : Z.abs T * X = Z.abs (T * X)) by (rewrite Z.abs_mul; lia).
    assert (H2 : Z.abs (T * X) * 8796093022208 <= (4398046511104 + 200) * (l * X)) by lia.
    rewrite <- Habs in H2.
    assert (H3 : Z.abs T * 8796093022208 * X <= (4398046511104 + 200) * l * X) by lia.
    apply Z.mul_le_mono_pos_r in H3; [|done]. lia.
Qed.

Lemma format_mk_float m e :
  0 <= m -> e <= 971 ->
  PyNum.format_6_2f (PyNum.Float (mk_float false m e))
  = Ret (PyNum.rjust 6 (hundredths_text (shown_hundredths (mk_float false m e)))).
Proof.
  intros Hm He. unfold mk_float. destruct m as [|p|p]; [done| |lia].
  replace (e <=? 971) with true by (symmetry; apply Z.leb_le; lia). done.
Qed.

Lemma percentage_guarded c l p : percentage c l = Ret p -> guarded l p.
Proof.
  destruct (percentage_cases c l) as [[Hl ->]|[(Hl & q & Hq & ->)|(_ & _ & ->)]]; [| |done];
    by intros [= <-].
Qed.

Lemma percentage_percent_of c l p :
  0 <= c <= l -> percentage c l = Ret p -> percent_of c l p.
Proof.
  intros Hc.
  destruct (percentage_cases c l) as [[Hl ->]|[(Hl & q & Hq & Hp)|(_ & _ & ->)]]; [| |done].
  - intros [= <-]. by split_and!.
  - rewrite Hp. intros [= <-]. split; [done|].
    destruct (percentage_near c l Hc Hl) as (x & Hx & Hnear & m & e & Hm & He & -> & Hacc).
    rewrite Hp in Hx. injection Hx as ->. split; [done|]. split.
    + apply hundredths_near; (done || lia).
    + apply format_mk_float; lia.
Qed.

(** ** Sums over the table *)

Lemma zsum_perm l1 l2 : l1 ≡ₚ l2 -> zsum l1 = zsum l2.
Proof. induction 1; simpl; lia. Qed.

Lemma dict_get_head {V : Type} (k : string) (v : V) (d : Dict.t V) :
  Dict.get k ((k, v) :: d) = Some v.
Proof. simpl. by rewrite String.eqb_refl. Qed.

Lemma dict_get_tail {V : Type} (k k' : string) (v : V) (d : Dict.t V) :
  k <> k' -> Dict.get k' ((k, v) :: d) = Dict.get k' d.
Proof. intros Hne. simpl. destruct (String.eqb_spec k' k); congruence. Qed.

Lemma dict_get_binding {V : Type} (k : string) (v : V) (d : Dict.t V) :
  Dict.wf d -> (Dict.get k d = Some v <-> (k, v) ∈ d).
Proof.
  unfold Dict.wf. induction d as [|[k0 v0] d IH]; simpl.
  - intros _. split; [done|by intros ?%elem_of_nil].
  - intros [Hk0 Hd]%NoDup_cons. rewrite elem_of_cons.
    destruct (String.eqb_spec k k0) as [->|Hne].
    + split; [intros [= ->]; by left|].
      intros [[= ->]|Hin]; [done|]. destruct Hk0.
      apply list_elem_of_fmap. by exists (k0, v).
    + rewrite IH by done. split; [auto|]. intros [[= -> ->]|?]; done.
Qed.

Lemma dict_get_perm {V : Type} (k : string) (d d' : Dict.t V) :
  Dict.wf d -> d' ≡ₚ d -> Dict.get k d' = Dict.get k d.
Proof.
  intros Hwf Hperm.
  assert (Hwf' : Dict.wf d').
  { unfold Dict.wf, Dict.keys in *. by rewrite Hperm. }
  destruct (Dict.get k d) as [v|] eqn:Hd.
  - apply dict_get_binding; [done|]. rewrite Hperm. by apply dict_get_binding.
  - destruct (Dict.get k d') as [v|] eqn:Hd'; [|done].
    apply dict_get_binding in Hd'; [|done]. rewrite Hperm in Hd'.
    apply dict_get_binding in Hd'; [congruence|done].
Qed.

Lemma table_sum_keys (g : stats -> Z) (cov : table) :
  Dict.wf cov ->
  map (fun f => g (default zero_stats (Dict.get f cov))) (Dict.keys cov)
  = map (fun kv => g kv.2) cov.
Proof.
  unfold Dict.wf. induction cov as [|[k v] cov IH]; [done|].
  intros [Hk Hcov]%NoDup_cons. unfold Dict.keys. fold (@Dict.keys stats).
  cbn [map fst snd]. rewrite dict_get_head. cbn [default]. f_equal.
  rewrite <- IH by done. apply map_ext_in. intros f Hf%list_elem_of_In.
  rewrite dict_get_tail; [done|]. by intros ->.
Qed.

Lemma rows_sum (g : stats -> Z) (h : out_line -> Z) cov fs rows :
  (forall f s p, h (FileRow f (total s) (covered s) p) = g s) ->
  Forall2 (row_of cov) fs rows ->
  map h rows = map (fun f => g (default zero_stats (Dict.get f cov))) fs.
Proof.
  intros Hh. induction 1 as [|f o fs rows (s & p & Hs & _ & ->) _ IH]; [done|].
  cbn [map]. by rewrite IH, Hs, Hh.
Qed.

Lemma sorted_keys_perm (cov : table) : sorted (Dict.keys cov) ≡ₚ Dict.keys cov.
Proof. apply merge_sort_Permutation. Qed.

Lemma sorted_strongly (keys : list string) : StronglySorted String.le (sorted keys).
Proof. apply StronglySorted_merge_sort; apply _. Qed.

Lemma rows_totals cov rows :
  Dict.wf cov -> Forall2 (row_of cov) (sorted (Dict.keys cov)) rows ->
  zsum (map row_lines rows) = table_total cov /\
  zsum (map row_covered rows) = table_covered cov.
Proof.
  intros Hwf Hrows. unfold table_total, table_covered.
  rewrite <- (table_sum_keys total), <- (table_sum_keys covered) by done.
  rewrite (rows_sum total row_lines cov _ rows), (rows_sum covered row_covered cov _ rows)
    by done.
  split; apply zsum_perm, Permutation_map, sorted_keys_perm.
Qed.

Lemma table_sums_bounded (cov : table) :
  Dict.wf cov -> bounded cov -> 0 <= table_covered cov <= table_total cov.
Proof.
  unfold table_total, table_covered. intros Hwf Hb.
  assert (Hall : Forall (fun kv => 0 <= covered kv.2 <= total kv.2) cov).
  { apply Forall_forall. intros [k v] Hin. apply (Hb k). by apply dict_get_binding. }
  clear Hwf Hb. induction Hall as [|kv cov Hkv _ IH]; simpl; lia.
Qed.

Lemma for_each_ext {S X : Type} (f g : S -> X -> IO S) (xs : list X) :
  (forall s x out, x ∈ xs -> f s x out = g s x out) ->
  forall s out, for_each f s xs out = for_each g s xs out.
Proof.
  induction xs as [|x xs IH]; intros Hfg s out; simpl; [done|].
  unfold mbind, io_bind. rewrite Hfg by left.
  destruct (g s x out) as [out' [s'|e]]; [|done].
  apply IH. intros s0 x0 out0 Hx0. apply Hfg. by right.
Qed.

(** With the invariants of the table, [print_report] returns, having
    written a row for each file and the row of the sums. *)
Lemma print_report_returns (cov : table) (out : list out_line) :
  bounded cov ->
  exists rows tp,
    Forall2 (row_of cov) (sorted (Dict.keys cov)) rows /\
    percentage (zsum (map row_covered rows)) (zsum (map row_lines rows)) = Ret tp /\
    print_report cov out =
      ((out ++ [Text header; Text rule] ++ rows
          ++ [Text rule;
              TotalRow (zsum (map row_lines rows)) (zsum (map row_covered rows)) tp])%list,
       Ret tt).
Proof.
  intros Hb.
  assert (Hloop : forall files acc out0,
             Forall (fun f => f ∈ Dict.keys cov) files ->
             exists out1 acc', for_each (report_file cov) acc files out0 = (out1, Ret acc')).
  { induction files as [|f files IH]; intros acc out0 Hfiles; simpl; [by eexists _, _|].
    apply Forall_cons in Hfiles as [Hf Hfiles]. unfold mbind, io_bind.
    destruct (report_file_cases cov acc f out0)
      as [[Hnone _]|[(s & Hs & Hov & _)|(s & p & Hs & Hp & ->)]].
    - apply dict_get_elem_of in Hf as [s Hs]. congruence.
    - destruct (percentage_counts (covered s) (total s)) as [p Hp]; [by eapply Hb|].
      congruence.
    - by apply IH. }
  destruct (print_report_cases cov out)
    as (fs & rows & Hrows & Hpre & [(tp & -> & Htp & Hrun)|(e & tail & He & _ & Hrun)]).
  { by exists rows, tp. }
  exfalso. unfold print_report, mbind, io_bind in Hrun. rewrite !print_text in Hrun.
  edestruct (Hloop (sorted (Dict.keys cov)) (0, 0)) as (out1 & acc' & Hl).
  { apply Forall_forall. intros f Hf. by rewrite <- (sorted_keys_perm cov). }
  rewrite Hl, print_text in Hrun. unfold lift in Hrun.
  pose proof Hl as Hl'.
  apply for_each_report in Hl' as (fs' & rows' & -> & Hrows' & _ & -> & ->).
  simpl in Hrun. rewrite !Z.add_0_l in Hrun.
  destruct (percentage_counts (zsum (map row_covered rows')) (zsum (map row_lines rows')))
    as [tp Htp].
  { clear -Hrows' Hb. induction Hrows' as [|f o fs rows (s & p & Hs & _ & ->) _ IH];
      simpl; [lia|]. specialize (Hb _ _ Hs). lia. }
  rewrite Htp in Hrun.
  rewrite (proj2 (print_row_percentage "" _ _ _ _ Htp)) in Hrun. done.
Qed.

(** ** The order of the rows (C6) *)

Lemma print_report_perm (cov cov' : table) (out : list out_line) :
  Dict.wf cov -> cov' ≡ₚ cov -> print_report cov' out = print_report cov out.
Proof.
  intros Hwf Hperm.
  assert (Hkeys : sorted (Dict.keys cov') = sorted (Dict.keys cov)).
  { apply (StronglySorted_unique String.le); [apply sorted_strongly..|].
    rewrite !sorted_keys_perm. unfold Dict.keys. by rewrite Hperm. }
  unfold print_report, mbind, io_bind. rewrite !print_text, Hkeys.
  rewrite (for_each_ext (report_file cov') (report_file cov)); [done|].
  intros acc f out0 _. unfold report_file, Dict.getitem.
  by rewrite (dict_get_perm f cov cov').
Qed.

(** C6.  Whatever the table and the order of its bindings, the paths
    of the per-file rows written by [print_report] are in ascending
    order of code points, without repetition for a table with one
    binding per key; when [print_report] returns, which it does for
    every table within the invariant, they are the keys of the table,
    each once; and two tables with the same bindings in different
    orders give the same output. *)
Theorem rows_in_path_order (cov : table) :
  StronglySorted String.le (row_files (print_report cov []).1) /\
  row_files (print_report cov []).1 `prefix_of` sorted (Dict.keys cov) /\
  ((print_report cov []).2 = Ret tt ->
   row_files (print_report cov []).1 = sorted (Dict.keys cov) /\
   row_files (print_report cov []).1 ≡ₚ Dict.keys cov) /\
  (bounded cov -> (print_report cov []).2 = Ret tt) /\
  (Dict.wf cov ->
   NoDup (row_files (print_report cov []).1) /\
   forall cov', cov' ≡ₚ cov -> print_report cov' [] = print_report cov []).
Proof.
  assert (Hfiles : exists fs, row_files (print_report cov []).1 = fs /\
            fs `prefix_of` sorted (Dict.keys cov) /\
            ((print_report cov []).2 = Ret tt -> fs = sorted (Dict.keys cov))).
  { destruct (print_report_cases cov [])
      as (fs & rows & Hrows & Hpre & [(tp & Hfs & _ & ->)|(e & tail & _ & Htail & ->)]).
    - exists fs. split; [|split; [done|done]]. simpl.
      change (Text header :: Text rule :: (rows ++ ?t))%list
        with ([Text header; Text rule] ++ rows ++ t)%list.
      rewrite !row_files_app. simpl. rewrite app_nil_r. by apply (row_of_files cov).
    - exists fs. split; [|split; [done|done]]. simpl.
      change (Text header :: Text rule :: (rows ++ ?t))%list
        with ([Text header; Text rule] ++ rows ++ t)%list.
      rewrite !row_files_app, Htail. simpl. rewrite app_nil_r. by apply (row_of_files cov). }
  destruct Hfiles as (fs & -> & [rest Hpre] & Hall).
  pose proof (sorted_strongly (Dict.keys cov)) as Hsorted. rewrite Hpre in Hsorted.
  split_and!.
  - by apply StronglySorted_app_1_l in Hsorted.
  - by exists rest.
  - intros Hret. rewrite (Hall Hret). split; [done|apply sorted_keys_perm].
  - intros Hb. destruct (print_report_returns cov [] Hb) as (rows & tp & _ & _ & ->). done.
  - intros Hwf. split; [|intros cov' Hperm; by apply print_report_perm].
    assert (Hnd : NoDup (sorted (Dict.keys cov))) by by rewrite sorted_keys_perm.
    rewrite Hpre in Hnd. by apply NoDup_app in Hnd as [? _].
Qed.

Lemma rows_in_path_order_witness :
  row_files (print_report [("src/b.c", {| total := 3; covered := 2 |});
                           ("lib/a.c", {| total := 1; covered := 0 |})] []).1
  = sorted ["src/b.c"; "lib/a.c"] /\
  row_files (print_report [("src/b.c", {| total := 3; covered := 2 |});
                           ("lib/a.c", {| total := 1; covered := 0 |})] []).1
  ≡ₚ ["src/b.c"; "lib/a.c"].
Proof.
  apply (proj1 (proj2 (proj2 (rows_in_path_order
           [("src/b.c", {| total := 3; covered := 2 |});
            ("lib/a.c", {| total := 1; covered := 0 |})])))).
  vm_compute. reflexivity.
Defined.

(** ** Percentages and the row of sums (C7) *)

Lemma bounded_check (cov : table) :
  forallb (fun kv => (0 <=? covered kv.2) && (covered kv.2 <=? total kv.2)) cov = true ->
  bounded cov.
Proof.
  intros Hall f s Hs. induction cov as [|[k v] cov IH]; simpl in *; [done|].
  apply andb_prop in Hall as [Hv Hall].
  destruct (String.eqb f k); [|by apply IH].
  injection Hs as <-. simpl in Hv. lia.
Qed.

Lemma wf_check (cov : table) : bool_decide (NoDup (Dict.keys cov)) = true -> Dict.wf cov.
Proof. apply bool_decide_eq_true. Qed.

Lemma parse_lines_bounded `{Host} (lines : list string) (st : pstate) :
  parse_lines init lines = Ret st -> bounded (coverage st).
Proof.
  apply (parse_lines_preserves (fun st => bounded (coverage st)));
    [apply @step_bounded|done].
Qed.

(** The per-file rows that [print_report] writes are rows of the
    table. *)
Lemma print_report_rows (cov : table) f l c p :
  FileRow f l c p ∈ (print_report cov []).1 ->
  Dict.get f cov = Some {| total := l; covered := c |} /\ percentage c l = Ret p.
Proof.
  intros Hin.
  assert (Hrow : exists fs rows, Forall2 (row_of cov) fs rows /\ FileRow f l c p ∈ rows).
  { destruct (print_report_cases cov [])
      as (fs & rows & Hrows & _ & [(tp & _ & _ & Hrun)|(e & tail & _ & Htail & Hrun)]);
      rewrite Hrun in Hin; simpl in Hin; exists fs, rows; (split; [done|]).
    - apply elem_of_cons in Hin as [?|Hin]; [done|].
      apply elem_of_cons in Hin as [?|Hin]; [done|].
      apply elem_of_app in Hin as [?|Hin]; [done|].
      apply elem_of_cons in Hin as [?|Hin]; [done|].
      by apply list_elem_of_singleton in Hin.
    - apply elem_of_cons in Hin as [?|Hin]; [done|].
      apply elem_of_cons in Hin as [?|Hin]; [done|].
      apply elem_of_app in Hin as [?|Hin]; [done|].
      exfalso. clear -Htail Hin. induction tail as [|o tail IH]; [by apply elem_of_nil in Hin|].
      apply elem_of_cons in Hin as [<-|Hin]; [done|].
      apply IH; [done|]. unfold row_files in *. simpl in Htail. by destruct o. }
  destruct Hrow as (fs & rows & Hrows & Hrow).
  clear Hin. induction Hrows as [|f0 o fs rows (s & p0 & Hs & Hp & ->) _ IH];
    [by apply elem_of_nil in Hrow|].
  apply elem_of_cons in Hrow as [[= -> -> -> ->]|Hrow]; [|by apply IH].
  split; [by destruct s|done].
Qed.

(** C7.  [print_report] never ends on [ZeroDivisionError], which a
    division by 0 would raise: each division has a positive divisor.
    Every per-file row it writes shows the counts of its file, with the
    integer 0 as percentage when [total <= 0] and a float when
    [total > 0]; for counts with [0 <= covered <= total] this is the
    percentage [percent_of] asks for: [100 * covered / total] up to
    [2^-42], printed as that percentage rounded to two decimals, and
    [  0.00] for the integer 0.  For a table within the invariants
    [print_report] returns, and its last line is the row of the sums of
    [total] and of [covered] over the table, with the percentage of the
    sums under the same guard.  The tables that [parse_lcov] returns
    are within the invariants: every row printed for them shows the
    percentage of its counts. *)
Theorem percentages_guarded (cov : table) :
  (forall out, (print_report cov out).2 <> Raise ZeroDivisionError) /\
  (forall c, PyNum.truediv c 0 = Raise ZeroDivisionError) /\
  (forall f l c p,
     FileRow f l c p ∈ (print_report cov []).1 ->
     Dict.get f cov = Some {| total := l; covered := c |} /\
     guarded l p /\
     (0 <= c <= l -> percent_of c l p)) /\
  (Dict.wf cov -> bounded cov ->
   exists rows tp,
     print_report cov [] =
       ([Text header; Text rule] ++ rows
          ++ [Text rule; TotalRow (table_total cov) (table_covered cov) tp], Ret tt)%list /\
     Forall2 (row_of cov) (sorted (Dict.keys cov)) rows /\
     0 <= table_covered cov <= table_total cov /\
     percent_of (table_covered cov) (table_total cov) tp) /\
  (forall (H : Host) path out out',
     parse_lcov path out = (out', Ret cov) ->
     Dict.wf cov /\ bounded cov /\
     forall f l c p,
       FileRow f l c p ∈ (print_report cov []).1 ->
       Dict.get f cov = Some {| total := l; covered := c |} /\ percent_of c l p).
Proof.
  split_and!.
  - intros out. destruct (print_report_cases cov out)
      as (fs & rows & _ & _ & [(tp & _ & _ & ->)|(e & tail & [->| ->] & _ & ->)]); done.
  - done.
  - intros f l c p [Hs Hp]%print_report_rows. split; [done|].
    split; [by eapply percentage_guarded|]. intros Hc. by apply percentage_percent_of.
  - intros Hwf Hb.
    destruct (print_report_returns cov [] Hb) as (rows & tp & Hrows & Htp & Hrun).
    destruct (rows_totals cov rows Hwf Hrows) as [Ht Hc]. rewrite Ht, Hc in *.
    pose proof (table_sums_bounded cov Hwf Hb) as Hsums.
    exists rows, tp. split; [done|]. split; [done|]. split; [done|].
    by apply percentage_percent_of.
  - intros H path out out' (_ & lines & st & _ & Hrun & ->)%parse_lcov_ret.
    pose proof (parse_lines_bounded lines st Hrun) as Hb.
    assert (Hl : linked st) by (eapply parse_lines_linked; [apply init_linked|done]).
    split; [apply Hl|]. split; [done|].
    intros f l c p [Hs Hp]%print_report_rows. split; [done|].
    apply percentage_percent_of; [|done]. apply (Hb _ _ Hs).
Qed.

Lemma percentages_guarded_witness :
  let cov := [("x.c", {| total := 3; covered := 1 |}); ("y.c", zero_stats)] in
  (Dict.get "x.c" cov = Some {| total := 3; covered := 1 |} /\
   percent_of 1 3 (PyNum.Float (S754_finite false 4691249611844266 (-47)))) /\
  (Dict.get "y.c" cov = Some {| total := 0; covered := 0 |} /\
   percent_of 0 0 (PyNum.Int 0)) /\
  exists rows tp,
    print_report cov [] =
      ([Text header; Text rule] ++ rows
         ++ [Text rule; TotalRow (table_total cov) (table_covered cov) tp], Ret tt)%list /\
    Forall2 (row_of cov) (sorted (Dict.keys cov)) rows /\
    0 <= table_covered cov <= table_total cov /\
    percent_of (table_covered cov) (table_total cov) tp.
Proof.
  intros cov. split; [|split].
  - destruct (proj1 (proj2 (proj2 (percentages_guarded cov))) "x.c" 3 1
                (PyNum.Float (S754_finite false 4691249611844266 (-47))))
      as (Hs & _ & Hp).
    + vm_compute. repeat constructor.
    + split; [exact Hs|]. apply Hp. lia.
  - destruct (proj1 (proj2 (proj2 (percentages_guarded cov))) "y.c" 0 0 (PyNum.Int 0))
      as (Hs & _ & Hp).
    + vm_compute. repeat constructor.
    + split; [exact Hs|]. apply Hp. lia.
  - apply (proj1 (proj2 (proj2 (proj2 (percentages_guarded cov))))).
    + apply wf_check. vm_compute. reflexivity.
    + apply bounded_check. reflexivity.
Defined.

(** ** The examples of the specification *)

(** An empty file: an empty table, and a report of the header, the two
    rules and the row of sums. *)
Example empty_file_report :
  @parse_lines demo_host init [] = Ret init /\
  rendered (print_report [] []).1 =
    [ "File                                                         | Lines      | Covered    | Coverage";
      "-----------------------------------------------------------------------------------------------";
      "-----------------------------------------------------------------------------------------------";
      "TOTAL                                                        | 0          | 0          |   0.00%" ].
Proof. split; reflexivity. Qed.

(** One section without line data: both counts 0, shown as 0.00%. *)
Example section_without_data :
  coverage <$> @parse_lines demo_host init ["SF:a.c"] = Ret [("a.c", zero_stats)] /\
  render (FileRow "a.c" 0 0 (PyNum.Int 0)) =
    Ret "a.c                                                          | 0          | 0          |   0.00%".
Proof. split; reflexivity. Qed.

(** One section with the counts 0, 5, 0: three lines, one covered, 33.33%. *)
Example one_of_three :
  coverage <$> @parse_lines demo_host init ["SF:a.c"; "DA:1,0"; "DA:2,5"; "DA:3,0"]
    = Ret [("a.c", {| total := 3; covered := 1 |})] /\
  rendered (print_report [("a.c", {| total := 3; covered := 1 |})] []).1 =
    [ "File                                                         | Lines      | Covered    | Coverage";
      "-----------------------------------------------------------------------------------------------";
      "a.c                                                          | 3          | 1          |  33.33%";
      "-----------------------------------------------------------------------------------------------";
      "TOTAL                                                        | 3          | 1          |  33.33%" ].
Proof. repeat split; vm_compute; reflexivity. Qed.

(** The table of the example file: sections of one path add up, the
    lines before the first section and under the empty path count for
    nothing. *)
Example demo_table :
  @parse_lcov demo_host "cov.info" [] =
    ([], Ret [("src/b.c", {| total := 3; covered := 2 |});
              ("lib/a.c", {| total := 1; covered := 0 |});
              ("", zero_stats);
              ("D:/x.c", zero_stats)]).
Proof. vm_compute. reflexivity. Qed.

(** No argument: the usage line and status 1; a full run: status 0. *)
Example usage_and_success :
  @run demo_host ["analyze_coverage.py"] =
    ([Text "Usage: python analyze_coverage.py <lcov_file>"], Raise (SystemExit 1)) /\
  exit_status (@run demo_host ["analyze_coverage.py"]).2 = 1 /\
  exit_status (@run demo_host ["analyze_coverage.py"; "cov.info"]).2 = 0 /\
  row_files (@run demo_host ["analyze_coverage.py"; "cov.info"]).1
    = [""; "D:/x.c"; "lib/a.c"; "src/b.c"].
Proof. repeat split; vm_compute; reflexivity. Qed.

(** The built-ins, on inputs checked against CPython. *)
Example strip_ex :
  Py.strip (String "028" " a" ++ String "133" (String "160" (String "031" ""))) = "a".
Proof. reflexivity. Qed.

Example split_ex :
  Py.split "," "a,b,,c" = ["a"; "b"; ""; "c"] /\
  Py.split "," "" = [""] /\
  Py.split "," "," = [""; ""].
Proof. repeat split. Qed.

Example int_ex :
  map Py.int ["5"; " 5"; "5 "; "+5"; "-5"; "1_0"; "_1"; "1_"; "1__0"; "007"; "0x10";
              ""; "+"; " "; "1.0"; "- 5"; "+-5";
              String "028" "5"; String "160" "5"; String "133" "5"; String "011" "5"]
  = [Some 5; Some 5; Some 5; Some 5; Some (-5); Some 10; None; None; None; Some 7; None;
     None; None; None; None; None; None;
     None; Some 5; Some 5; Some 5].
Proof. reflexivity. Qed.

(** What [near] and [nearest_hundredths] accept for one line covered
    out of three. *)
Example near_ex :
  near (S754_finite false 4691249611844266 (-47)) (100 * 1) 3 = true /\
  near (S754_finite false 4691249611844266 (-46)) (100 * 1) 3 = false /\
  near (S754_zero false) (100 * 1) 3 = false /\
  near (S754_finite false 1 0) (100 * 1) 3 = false /\
  shown_hundredths (S754_finite false 4691249611844266 (-47)) = 3333 /\
  nearest_hundredths 3333 1 3 = true /\
  nearest_hundredths 3332 1 3 = false /\
  nearest_hundredths 3334 1 3 = false /\
  hundredths_text 3333 = "33.33".
Proof. repeat split; vm_compute; reflexivity. Qed.

Example percent_ex :
  percentage 1 3 ≫= PyNum.format_6_2f = Ret " 33.33" /\
  percentage 2 3 ≫= PyNum.format_6_2f = Ret " 66.67" /\
  percentage 1 20000 ≫= PyNum.format_6_2f = Ret "  0.01" /\
  percentage 5 5 ≫= PyNum.format_6_2f = Ret "100.00" /\
  percentage 0 0 ≫= PyNum.format_6_2f = Ret "  0.00" /\
  PyNum.truediv 1 0 = Raise ZeroDivisionError /\
  PyNum.truediv (10 ^ 400) 1 = Raise OverflowError.
Proof. repeat split; vm_compute; reflexivity. Qed.

(** * Further properties of the program *)

(** ** Lines of other kinds *)

(** X4.  Records that are neither [SF:] nor [DA:] play no part:
    dropping them from the input changes neither the table nor the
    error the loop ends on, from any state. *)
Theorem other_records_ignored `{Host} (st : pstate) (lines : list string) :
  parse_lines st (List.filter (fun raw => is_sf raw || is_da raw) lines)
  = parse_lines st lines.
Proof.
  revert st. induction lines as [|raw lines IH]; intros st; simpl; [done|].
  destruct (is_sf raw) eqn:Hsf; simpl.
  { destruct (process_line st raw); simpl; [apply IH|done]. }
  destruct (is_da raw) eqn:Hda; simpl.
  { destruct (process_line st raw); simpl; [apply IH|done]. }
  rewrite (process_line_ignored st raw) by (by rewrite ?Hda). simpl. apply IH.
Qed.

(** X11.  Of a line-data record only the second field is read: two
    such records with the same second field, whatever their line
    numbers and further fields, do the same to any state.  In
    particular a line listed twice is counted twice. *)
Theorem da_line_second_field_only `{Host} (st : pstate) (raw1 raw2 : string)
    (x1 x2 field : string) (rest1 rest2 : list string) :
  is_da raw1 = true -> is_da raw2 = true ->
  fields raw1 = x1 :: field :: rest1 ->
  fields raw2 = x2 :: field :: rest2 ->
  process_line st raw1 = process_line st raw2.
Proof.
  intros Hda1 Hda2 Hf1 Hf2.
  assert (Hsf : forall raw, is_da raw = true -> is_sf raw = false).
  { intros raw Hda. destruct (is_sf raw) eqn:Hsf; [|done].
    apply sf_not_da in Hsf. congruence. }
  destruct (truthy (current_file st)) eqn:Htr.
  - apply truthy_inv in Htr as (f & Hcf & Hf).
    rewrite (process_line_da st raw1 f), (process_line_da st raw2 f) by done.
    by rewrite Hf1, Hf2.
  - rewrite !process_line_ignored; auto using andb_false_r.
    all: by rewrite Htr, andb_false_r.
Qed.

Lemma da_line_second_field_only_witness :
  @process_line demo_host
    {| coverage := [("a.c", zero_stats)]; current_file := Some "a.c" |} "DA:1,5"
  = @process_line demo_host
    {| coverage := [("a.c", zero_stats)]; current_file := Some "a.c" |} "DA:x y,5,sum,more".
Proof.
  apply (@da_line_second_field_only demo_host _ "DA:1,5" "DA:x y,5,sum,more"
           "1" "x y" "5" [] ["sum"; "more"]); reflexivity.
Defined.

(** ** The entry point *)

(** X1.  With fewer than two entries in [argv] the program prints the
    usage line and exits with status 1, whatever the host: no file is
    opened.  With two or more, only [argv[1]] counts. *)
Theorem usage_without_path (H1 H2 : Host) (argv : list string) :
  (length argv < 2)%nat ->
  @run H1 argv = ([Text usage], Raise (SystemExit 1)) /\
  exit_status (@run H1 argv).2 = 1 /\
  @run H1 argv = @run H2 argv /\
  forall prog prog' path rest rest',
    @run H1 (prog :: path :: rest) = @run H1 (prog' :: path :: rest').
Proof.
  intros Hlen. destruct argv as [|a [|b argv]]; simpl in Hlen; [..|lia];
    by repeat split.
Qed.

Lemma usage_without_path_witness :
  @run demo_host ["analyze_coverage.py"] = ([Text usage], Raise (SystemExit 1)) /\
  exit_status (@run demo_host ["analyze_coverage.py"]).2 = 1 /\
  @run demo_host ["analyze_coverage.py"] = @run demo_host ["analyze_coverage.py"] /\
  forall prog prog' path rest rest',
    @run demo_host (prog :: path :: rest) = @run demo_host (prog' :: path :: rest').
Proof.
  apply (usage_without_path demo_host demo_host ["analyze_coverage.py"]). simpl. lia.
Defined.

(** ** The keys of the table *)

Lemma step_keys `{Host} (st : pstate) (raw : string) (st' : pstate) (p : string) :
  step st raw st' ->
  (p ∈ Dict.keys (coverage st') <->
   p ∈ Dict.keys (coverage st) \/ (is_sf raw = true /\ sf_key raw = p)).
Proof.
  intros Hstep. rewrite <- !dict_get_elem_of. step_cases Hstep; simpl.
  - destruct (Dict.mem (sf_key raw) (coverage st)) eqn:Hm.
    + split; [auto|]. intros [?|[_ <-]]; [done|]. by apply dict_mem_get.
    + destruct (decide (sf_key raw = p)) as [<-|Hne].
      * rewrite dict_get_set_eq. split; eauto.
      * rewrite dict_get_set_ne by done. split; [auto|]. by intros [?|[_ ?]].
  - split; [auto|]. intros [?|[? _]]; [done|congruence].
  - assert (Hsf' : is_sf raw = false).
    { destruct (is_sf raw) eqn:Hsf; [|done]. apply sf_not_da in Hsf. congruence. }
    destruct (decide (f = p)) as [<-|Hne].
    + rewrite dict_get_set_eq, Hs. split; [eauto|]. eauto.
    + rewrite dict_get_set_ne by done. split; [auto|]. intros [?|[? _]]; [done|congruence].
Qed.

Lemma parse_lines_keys `{Host} (lines : list string) : forall st st' p,
  parse_lines st lines = Ret st' ->
  (p ∈ Dict.keys (coverage st') <->
   p ∈ Dict.keys (coverage st) \/
   exists raw, raw ∈ lines /\ is_sf raw = true /\ sf_key raw = p).
Proof.
  induction lines as [|raw lines IH]; intros st st' p; simpl.
  - intros [= <-]. split; [auto|]. intros [?|(raw & Hin & _)]; [done|].
    by apply elem_of_nil in Hin.
  - destruct (process_line st raw) as [st1|] eqn:Hp; simpl; [|done].
    intros Hrun. apply process_line_step in Hp.
    rewrite (IH st1 st' p Hrun), (step_keys st raw st1 p Hp). split.
    + intros [[?|[? ?]]|(r & Hin & ? & ?)]; [by left|right..].
      * exists raw. split; [by left|done].
      * exists r. split; [by right|done].
    + intros [?|(r & [->|Hin]%elem_of_cons & ? & ?)]; [by left; left| |].
      * left; right. done.
      * right. by exists r.
Qed.

(** X5.  The table has a record for exactly the paths that the
    source-file records of the input name, whether or not line data
    follows them. *)
Theorem table_keys_are_sf_paths `{Host} (lines : list string) (st : pstate) (p : string) :
  parse_lines init lines = Ret st ->
  (p ∈ Dict.keys (coverage st) <->
   exists raw, raw ∈ lines /\ is_sf raw = true /\ sf_key raw = p).
Proof.
  intros Hrun. rewrite (parse_lines_keys lines init st p Hrun). simpl. split.
  - intros [Hin|?]; [by apply elem_of_nil in Hin|done].
  - auto.
Qed.

Lemma table_keys_are_sf_paths_witness :
  "src/b.c" ∈ Dict.keys [("src/b.c", {| total := 1; covered := 0 |}); ("lib/a.c", zero_stats)]
  <-> exists raw, raw ∈ ["SF:C:/work/src/b.c"; "DA:1,0"; "SF:lib/a.c"] /\
        is_sf raw = true /\ @sf_key demo_host raw = "src/b.c".
Proof.
  apply (@table_keys_are_sf_paths demo_host
           ["SF:C:/work/src/b.c"; "DA:1,0"; "SF:lib/a.c"]
           {| coverage := [("src/b.c", {| total := 1; covered := 0 |}); ("lib/a.c", zero_stats)];
              current_file := Some "lib/a.c" |}).
  reflexivity.
Defined.

(** ** Counts along the input *)

(** X9.  Reading on never loses a record and never lowers a count: a
    record present after a prefix of the input is present after the
    whole of it, with [total] and [covered] at least as large. *)
Theorem counts_only_grow `{Host} (l1 l2 : list string) (mid fin : pstate)
    (p : string) (r : stats) :
  parse_lines init l1 = Ret mid ->
  parse_lines init (l1 ++ l2) = Ret fin ->
  Dict.get p (coverage mid) = Some r ->
  exists r', Dict.get p (coverage fin) = Some r' /\
             total r <= total r' /\ covered r <= covered r'.
Proof.
  intros H1 H12 Hr. rewrite parse_lines_app, H1 in H12. simpl in H12.
  apply (parse_lines_preserves
           (fun st => exists r', Dict.get p (coverage st) = Some r' /\
                                 total r <= total r' /\ covered r <= covered r'))
    with l2 mid; [|by exists r|done].
  clear H1 H12 Hr. intros st raw st' (r' & Hr' & Ht & Hc) Hstep.
  step_cases Hstep; simpl.
  - destruct (Dict.mem (sf_key raw) (coverage st)) eqn:Hm; [by exists r'|].
    apply dict_mem_false in Hm. rewrite dict_get_set_ne by congruence. by exists r'.
  - by exists r'.
  - destruct (decide (f = p)) as [->|Hne].
    + rewrite dict_get_set_eq. eexists. split; [done|]. simpl.
      assert (s = r') as -> by congruence. destruct (0 <? count); lia.
    + rewrite dict_get_set_ne by done. by exists r'.
Qed.

Lemma counts_only_grow_witness :
  exists r', Dict.get "a.c" [("a.c", {| total := 2; covered := 1 |}); ("b.c", zero_stats)]
             = Some r' /\
             total {| total := 1; covered := 0 |} <= total r' /\
             covered {| total := 1; covered := 0 |} <= covered r'.
Proof.
  apply (@counts_only_grow demo_host ["SF:a.c"; "DA:1,0"] ["DA:2,4"; "SF:b.c"]
           {| coverage := [("a.c", {| total := 1; covered := 0 |})];
              current_file := Some "a.c" |}
           {| coverage := [("a.c", {| total := 2; covered := 1 |}); ("b.c", zero_stats)];
              current_file := Some "b.c" |}
           "a.c"); reflexivity.
Defined.

(** ** Whole runs *)

(** X2.  When the file opens and every line is read, the program
    writes the header, a rule, one row per record of the table in
    ascending order of path, a rule and the row of the sums of the
    table, and ends with status 0. *)
Theorem successful_run_report `{Host} (prog path : string) (rest lines : list string)
    (st : pstate) :
  open_file path = Opened lines ->
  parse_lines init lines = Ret st ->
  exists rows tp,
    run (prog :: path :: rest) =
      ([Text header; Text rule] ++ rows
         ++ [Text rule;
             TotalRow (table_total (coverage st)) (table_covered (coverage st)) tp],
       Ret tt)%list /\
    Forall2 (row_of (coverage st)) (sorted (Dict.keys (coverage st))) rows /\
    row_files rows = sorted (Dict.keys (coverage st)) /\
    length rows = length (coverage st) /\
    percentage (table_covered (coverage st)) (table_total (coverage st)) = Ret tp /\
    exit_status (run (prog :: path :: rest)).2 = 0.
Proof.
  intros Hopen Hrun.
  assert (Hl : linked st) by (eapply parse_lines_linked; [apply init_linked|done]).
  destruct Hl as [Hwf _]. pose proof (parse_lines_bounded lines st Hrun) as Hb.
  destruct (print_report_returns (coverage st) [] Hb) as (rows & tp & Hrows & Htp & Hrep).
  destruct (rows_totals (coverage st) rows Hwf Hrows) as [Ht Hc]. rewrite Ht, Hc in *.
  assert (Hmain : run (prog :: path :: rest) = print_report (coverage st) []).
  { by rewrite run_path, (parse_lcov_opened path lines), Hrun. }
  exists rows, tp. rewrite Hmain, Hrep. split_and!; [done|done| | |done|done].
  - by apply (row_of_files (coverage st)).
  - rewrite <- (Forall2_length _ _ _ Hrows).
    rewrite (Permutation_length (sorted_keys_perm (coverage st))).
    unfold Dict.keys. by rewrite length_map.
Qed.

Lemma successful_run_report_witness :
  exists rows tp,
    @run demo_host ["analyze_coverage.py"; "cov.info"] =
      ([Text header; Text rule] ++ rows
         ++ [Text rule;
             TotalRow
               (table_total [("src/b.c", {| total := 3; covered := 2 |});
                             ("lib/a.c", {| total := 1; covered := 0 |});
                             ("", zero_stats); ("D:/x.c", zero_stats)])
               (table_covered [("src/b.c", {| total := 3; covered := 2 |});
                               ("lib/a.c", {| total := 1; covered := 0 |});
                               ("", zero_stats); ("D:/x.c", zero_stats)]) tp],
       Ret tt)%list /\
    Forall2 (row_of [("src/b.c", {| total := 3; covered := 2 |});
                     ("lib/a.c", {| total := 1; covered := 0 |});
                     ("", zero_stats); ("D:/x.c", zero_stats)])
            (sorted (Dict.keys [("src/b.c", {| total := 3; covered := 2 |});
                                ("lib/a.c", {| total := 1; covered := 0 |});
                                ("", zero_stats); ("D:/x.c", zero_stats)])) rows /\
    row_files rows = sorted (Dict.keys [("src/b.c", {| total := 3; covered := 2 |});
                                        ("lib/a.c", {| total := 1; covered := 0 |});
                                        ("", zero_stats); ("D:/x.c", zero_stats)]) /\
    length rows = length [("src/b.c", {| total := 3; covered := 2 |});
                          ("lib/a.c", {| total := 1; covered := 0 |});
                          ("", zero_stats); ("D:/x.c", zero_stats)] /\
    percentage (table_covered [("src/b.c", {| total := 3; covered := 2 |});
                               ("lib/a.c", {| total := 1; covered := 0 |});
                               ("", zero_stats); ("D:/x.c", zero_stats)])
               (table_total [("src/b.c", {| total := 3; covered := 2 |});
                             ("lib/a.c", {| total := 1; covered := 0 |});
                             ("", zero_stats); ("D:/x.c", zero_stats)]) = Ret tp /\
    exit_status (@run demo_host ["analyze_coverage.py"; "cov.info"]).2 = 0.
Proof.
  apply (@successful_run_report demo_host "analyze_coverage.py" "cov.info" [] demo_lines
           {| coverage := [("src/b.c", {| total := 3; covered := 2 |});
                           ("lib/a.c", {| total := 1; covered := 0 |});
                           ("", zero_stats); ("D:/x.c", zero_stats)];
              current_file := Some "D:/x.c" |}); reflexivity.
Defined.

Lemma run_opened_ret `{Host} (prog path : string) (rest lines : list string) (st : pstate) :
  open_file path = Opened lines -> parse_lines init lines = Ret st ->
  exists out, run (prog :: path :: rest) = (out, Ret tt).
Proof.
  intros Hopen Hrun. rewrite run_path, (parse_lcov_opened path lines), Hrun by done.
  destruct (print_report_returns (coverage st) [] (parse_lines_bounded lines st Hrun))
    as (rows & tp & _ & _ & ->). eauto.
Qed.

(** X3.  A run on a path ends with status 0 exactly when the file
    opens and every line is read.  In every other case (the failures of
    [open] being those of the operating system) the status is 1 and no
    part of a report is written: standard output is empty, or holds the
    not-found message alone.  In particular a file with a count that is
    no integer gives no partial report. *)
Theorem failed_run_prints_no_report `{Host} (prog path : string) (rest : list string) :
  (forall e, open_file path = OpenError e -> os_error e = true) ->
  (exit_status (run (prog :: path :: rest)).2 = 0 <->
   exists lines st, open_file path = Opened lines /\ parse_lines init lines = Ret st) /\
  (exit_status (run (prog :: path :: rest)).2 <> 0 ->
   exit_status (run (prog :: path :: rest)).2 = 1 /\
   ((run (prog :: path :: rest)).1 = [] \/
    (run (prog :: path :: rest)).1 = [Text ("Error: File " ++ path ++ " not found.")])) /\
  (forall lines e,
     open_file path = Opened lines -> parse_lines init lines = Raise e ->
     run (prog :: path :: rest) = ([], Raise ValueError)).
Proof.
  intros Hos.
  assert (Hbad : forall lines e,
             open_file path = Opened lines -> parse_lines init lines = Raise e ->
             run (prog :: path :: rest) = ([], Raise ValueError)).
  { intros lines e Hopen Hrun. rewrite run_path, (parse_lcov_opened path lines) by done.
    rewrite Hrun. by apply parse_lines_raise in Hrun as [-> _]; [|apply init_linked]. }
  destruct (open_file path) as [lines|e] eqn:Hopen.
  - destruct (parse_lines init lines) as [st|e] eqn:Hrun.
    + destruct (run_opened_ret prog path rest lines st Hopen Hrun) as [out Hout].
      rewrite Hout. simpl. split_and!; [|done|].
      * split; [eauto|done].
      * intros lines' e' [= <-]. congruence.
    + rewrite (Hbad lines e eq_refl Hrun). simpl. split_and!.
      * split; [done|]. intros (lines' & st & [= <-] & ?). congruence.
      * intros _. by split; [|left].
      * done.
  - specialize (Hos e eq_refl).
    destruct e; try done.
    + rewrite run_path, (parse_lcov_missing path []) by done. simpl.
      split_and!; [|by intros _; split; [|right]|done].
      split; [done|]. by intros (? & ? & ? & _).
    + rewrite run_path, (parse_lcov_open_error path [] PermissionError) by done. simpl.
      split_and!; [|by intros _; split; [|left]|done].
      split; [done|]. by intros (? & ? & ? & _).
    + rewrite run_path, (parse_lcov_open_error path [] IsADirectoryError) by done. simpl.
      split_and!; [|by intros _; split; [|left]|done].
      split; [done|]. by intros (? & ? & ? & _).
Qed.

Lemma failed_run_prints_no_report_witness :
  (exit_status (@run demo_host ["analyze_coverage.py"; "locked.info"]).2 = 0 <->
   exists lines st,
     @open_file demo_host "locked.info" = Opened lines /\
     @parse_lines demo_host init lines = Ret st) /\
  (exit_status (@run demo_host ["analyze_coverage.py"; "locked.info"]).2 <> 0 ->
   exit_status (@run demo_host ["analyze_coverage.py"; "locked.info"]).2 = 1 /\
   ((@run demo_host ["analyze_coverage.py"; "locked.info"]).1 = [] \/
    (@run demo_host ["analyze_coverage.py"; "locked.info"]).1
      = [Text ("Error: File " ++ "locked.info" ++ " not found.")])) /\
  (forall lines e,
     @open_file demo_host "locked.info" = Opened lines ->
     @parse_lines demo_host init lines = Raise e ->
     @run demo_host ["analyze_coverage.py"; "locked.info"] = ([], Raise ValueError)).
Proof.
  apply (@failed_run_prints_no_report demo_host "analyze_coverage.py" "locked.info" []).
  intros e Heq. injection Heq as <-. reflexivity.
Defined.

(** ** The sums of the table *)

Lemma dict_sum_set (g : stats -> Z) (k : string) (v : stats) (d : table) :
  zsum (map (fun kv => g kv.2) (Dict.set k v d))
  = zsum (map (fun kv => g kv.2) d) + g v
    - match Dict.get k d with Some old => g old | None => 0 end.
Proof.
  induction d as [|[k0 v0] d IH]; simpl; [lia|].
  destruct (String.eqb k k0); simpl; [lia|]. rewrite IH. lia.
Qed.

(** Each step adds to the sums what the line adds to the record of the
    current file. *)
Lemma step_sums `{Host} (st : pstate) (raw : string) (st' : pstate) :
  step st raw st' ->
  table_total (coverage st')
    = table_total (coverage st) + line_total (default "" (current_file st)) raw /\
  table_covered (coverage st')
    = table_covered (coverage st) + line_covered (default "" (current_file st)) raw.
Proof.
  intros Hstep. unfold table_total, table_covered. step_cases Hstep; simpl.
  - assert (Ht : forall key, line_total key raw = 0).
    { intros key. unfold line_total. by rewrite Hsf. }
    rewrite Ht, (line_covered_zero _ _ (Ht _)), !Z.add_0_r.
    destruct (Dict.mem (sf_key raw) (coverage st)) eqn:Hm; [done|].
    apply dict_mem_false in Hm. rewrite !dict_sum_set, Hm. simpl. lia.
  - assert (Ht : line_total (default "" (current_file st)) raw = 0).
    { unfold line_total. rewrite Hsf. cbn [negb andb].
      destruct Hskip as [->|[Htr|Hlen]]; [done| |].
      - assert (default "" (current_file st) = "") as ->
          by by destruct (current_file st) as [[|c f]|].
        cbn [String.eqb negb]. by rewrite andb_false_r.
      - apply Nat.leb_gt in Hlen. rewrite Hlen. by rewrite andb_false_r. }
    rewrite Ht, (line_covered_zero _ _ Ht). lia.
  - rewrite Hcf. simpl.
    assert (Hsf' : is_sf raw = false).
    { destruct (is_sf raw) eqn:Hsf; [|done]. apply sf_not_da in Hsf. congruence. }
    assert (Ht : line_total f raw = 1).
    { unfold line_total. rewrite Hsf', Hda, Hfields. simpl.
      by destruct (String.eqb_spec f ""). }
    assert (Hc : line_covered f raw = if 0 <? count then 1 else 0).
    { unfold line_covered. by rewrite Hfields, Hint, Ht. }
    rewrite Ht, Hc, !dict_sum_set, Hs. simpl. lia.
Qed.

Lemma section_body_sums `{Host} (body : list string) : forall st st' key,
  Forall (fun raw => is_sf raw = false) body ->
  current_file st = Some key ->
  parse_lines st body = Ret st' ->
  current_file st' = Some key /\
  table_total (coverage st')
    = table_total (coverage st) + zsum (map (line_total key) body) /\
  table_covered (coverage st')
    = table_covered (coverage st) + zsum (map (line_covered key) body).
Proof.
  induction body as [|raw body IH]; intros st st' key Hbody Hkey; simpl.
  - intros [= <-]. split; [done|lia].
  - apply Forall_cons in Hbody as [Hraw Hbody].
    destruct (process_line st raw) as [st1|] eqn:Hp; simpl; [|done].
    intros Hrun. apply process_line_step in Hp.
    destruct (step_sums st raw st1 Hp) as [Ht Hc]. rewrite Hkey in Ht, Hc. simpl in Ht, Hc.
    assert (Hkey1 : current_file st1 = Some key).
    { clear -Hp Hraw Hkey. step_cases Hp; simpl; congruence. }
    destruct (IH st1 st' key Hbody Hkey1 Hrun) as (Hkey' & Ht' & Hc').
    split; [done|]. lia.
Qed.

Lemma sections_sums `{Host} (secs : list section) : forall st0 st,
  Forall section_ok secs ->
  parse_lines st0 (concat (map section_lines secs)) = Ret st ->
  table_total (coverage st)
    = table_total (coverage st0) + zsum (map section_total secs) /\
  table_covered (coverage st)
    = table_covered (coverage st0) + zsum (map section_covered secs).
Proof.
  induction secs as [|sec secs IH]; intros st0 st Hok; simpl.
  - intros [= <-]. lia.
  - apply Forall_cons in Hok as [[Hhead Hbody] Hok].
    destruct (process_line st0 sec.1) as [st1|] eqn:Hp; simpl; [|done].
    intros (st2 & Hrun1 & Hrun2)%parse_lines_app_ret.
    apply process_line_step in Hp.
    destruct (step_sums st0 sec.1 st1 Hp) as [Ht1 Hc1].
    assert (Hz : forall key, line_total key sec.1 = 0).
    { intros key. unfold line_total. by rewrite Hhead. }
    rewrite Hz in Ht1. rewrite (line_covered_zero _ _ (Hz _)) in Hc1.
    assert (Hcf1 : current_file st1 = Some (sf_key sec.1)).
    { clear -Hp Hhead. step_cases Hp; simpl; [done|congruence|].
      apply sf_not_da in Hhead. congruence. }
    destruct (section_body_sums sec.2 st1 st2 _ Hbody Hcf1 Hrun1) as (_ & Ht2 & Hc2).
    destruct (IH st2 st Hok Hrun2) as [Ht Hc].
    change (section_total sec) with (zsum (map (line_total (sf_key sec.1)) sec.2)).
    change (section_covered sec) with (zsum (map (line_covered (sf_key sec.1)) sec.2)).
    lia.
Qed.

(** X8.  The sums that the row TOTAL shows count the input: the sum of
    [total] over the table is the number of line-data records counted
    in all sections together, and the sum of [covered] the number of
    those with a positive count. *)
Theorem totals_count_records `{Host} (pre : list string) (secs : list section)
    (fin : pstate) :
  Forall (fun raw => is_sf raw = false) pre ->
  Forall section_ok secs ->
  parse_lines init (pre ++ concat (map section_lines secs)) = Ret fin ->
  table_total (coverage fin) = zsum (map section_total secs) /\
  table_covered (coverage fin) = zsum (map section_covered secs).
Proof.
  intros Hpre Hsecs (mid & Hrun0 & Hrun)%parse_lines_app_ret.
  rewrite parse_lines_no_sf in Hrun0 by done. injection Hrun0 as <-.
  destruct (sections_sums secs init fin Hsecs Hrun) as [Ht Hc].
  rewrite Ht, Hc. unfold table_total, table_covered. simpl. lia.
Qed.

Lemma totals_count_records_witness :
  table_total [("a.c", {| total := 3; covered := 2 |}); ("b.c", {| total := 1; covered := 0 |})]
    = zsum (map (@section_total demo_host)
              [("SF:a.c", ["DA:1,1"; "DA:2,0"]);
               ("SF:b.c", ["DA:1,0"; "end_of_record"]);
               ("SF:C:/work/a.c", ["DA:9,4"; "DA:"])]) /\
  table_covered [("a.c", {| total := 3; covered := 2 |}); ("b.c", {| total := 1; covered := 0 |})]
    = zsum (map (@section_covered demo_host)
              [("SF:a.c", ["DA:1,1"; "DA:2,0"]);
               ("SF:b.c", ["DA:1,0"; "end_of_record"]);
               ("SF:C:/work/a.c", ["DA:9,4"; "DA:"])]).
Proof.
  apply (@totals_count_records demo_host ["TN:"; "DA:1,1"]
           [("SF:a.c", ["DA:1,1"; "DA:2,0"]);
            ("SF:b.c", ["DA:1,0"; "end_of_record"]);
            ("SF:C:/work/a.c", ["DA:9,4"; "DA:"])]
           {| coverage := [("a.c", {| total := 3; covered := 2 |});
                           ("b.c", {| total := 1; covered := 0 |})];
              current_file := Some "a.c" |}).
  - repeat (apply List.Forall_cons; [reflexivity|]). apply List.Forall_nil.
  - repeat (apply List.Forall_cons;
            [split; [reflexivity|repeat (apply List.Forall_cons; [reflexivity|]);
                                 apply List.Forall_nil]|]).
    apply List.Forall_nil.
  - reflexivity.
Defined.

(** ** Inputs put together, sections moved around *)

Lemma process_line_bad_count `{Host} (st : pstate) (raw : string) :
  bad_count raw = true -> truthy (current_file st) = true ->
  process_line st raw = Raise ValueError.
Proof.
  unfold bad_count. intros [Hda Hbad]%andb_prop (key & Hkey & Hne)%truthy_inv.
  rewrite (process_line_da st raw key) by done.
  destruct (fields raw) as [|x [|field rest]]; [done..|].
  unfold py_int. by destruct (Py.int field).
Qed.

Lemma section_body_returns `{Host} (body : list string) : forall st key,
  linked st -> current_file st = Some key ->
  Forall (fun raw => is_sf raw = false) body ->
  ((exists st', parse_lines st body = Ret st') <->
   Forall (fun raw => key = "" \/ bad_count raw = false) body).
Proof.
  induction body as [|raw body IH]; intros st key Hl Hkey Hbody; simpl.
  - split; [constructor|eauto].
  - apply Forall_cons in Hbody as [Hraw Hbody]. rewrite Forall_cons.
    destruct (process_line st raw) as [st1|e] eqn:Hp; simpl.
    + pose proof Hp as Hstep%process_line_step.
      assert (Hkey1 : current_file st1 = Some key).
      { clear -Hstep Hraw Hkey. step_cases Hstep; simpl; congruence. }
      rewrite (IH st1 key (step_linked _ _ _ Hl Hstep) Hkey1 Hbody).
      split; [|by intros [_ ?]]. intros Hrest. split; [|done].
      destruct (String.eqb_spec key "") as [|Hne]; [by left|right].
      destruct (bad_count raw) eqn:Hbad; [|done].
      rewrite process_line_bad_count in Hp; [done..|].
      rewrite Hkey, truthy_Some. by destruct (String.eqb_spec key "").
    + apply process_line_raise in Hp as (_ & Hbad & Htr); [|done].
      rewrite Hkey, truthy_Some in Htr.
      split; [by intros [? ?]|]. intros [[->|?] _]; [done|congruence].
Qed.

(** A run of sections returns exactly when each of them can be read. *)
Lemma sections_return `{Host} (secs : list section) : forall st0,
  linked st0 -> Forall section_ok secs ->
  ((exists st, parse_lines st0 (concat (map section_lines secs)) = Ret st) <->
   Forall section_clean secs).
Proof.
  induction secs as [|sec secs IH]; intros st0 Hl Hok; simpl.
  - split; [constructor|eauto].
  - apply Forall_cons in Hok as [[Hhead Hbody] Hok]. rewrite Forall_cons.
    pose proof (process_line_sf st0 sec.1 Hhead) as Hp. rewrite Hp. simpl.
    set (st1 := {| coverage := _; current_file := Some (sf_key sec.1) |}) in *.
    assert (Hl1 : linked st1).
    { apply (step_linked st0 sec.1); [done|]. by apply process_line_step. }
    rewrite <- (section_body_returns sec.2 st1 (sf_key sec.1) Hl1 eq_refl Hbody). split.
    + intros (st & (st2 & Hrun1 & Hrun2)%parse_lines_app_ret). split; [eauto|].
      apply (IH st2); [by eapply parse_lines_linked|done|eauto].
    + intros [[st2 Hrun1] Hrest].
      apply (IH st2) in Hrest as [st Hrun2]; [|by eapply parse_lines_linked|done].
      exists st. by rewrite parse_lines_app, Hrun1.
Qed.

Lemma sections_of_absent `{Host} (p : string) (secs : list section) :
  p ∉ section_keys secs -> sections_of p secs = [].
Proof.
  unfold sections_of, section_keys. induction secs as [|sec secs IH]; [done|].
  simpl. intros Hnot. rewrite filter_cons.
  destruct (decide (sf_key sec.1 = p)) as [<-|_].
  - destruct Hnot. by left.
  - apply IH. intros Hin. apply Hnot. by right.
Qed.

(** X6.  Putting one input after another adds the tables up: if two
    inputs made of sections are each read, so is the first followed by
    the second, and the record of every path is the sum of its records
    in the two tables (or the one it has, or none). *)
Theorem concatenation_adds_counts `{Host} (secsA secsB : list section)
    (stA stB : pstate) :
  Forall section_ok secsA -> Forall section_ok secsB ->
  parse_lines init (concat (map section_lines secsA)) = Ret stA ->
  parse_lines init (concat (map section_lines secsB)) = Ret stB ->
  exists stAB,
    parse_lines init (concat (map section_lines (secsA ++ secsB))) = Ret stAB /\
    forall p, Dict.get p (coverage stAB)
              = stats_merge (Dict.get p (coverage stA)) (Dict.get p (coverage stB)).
Proof.
  intros HA HB HrunA HrunB.
  assert (HlA : linked stA) by (eapply parse_lines_linked; [apply init_linked|done]).
  assert (Hclean : Forall section_clean secsB).
  { apply (sections_return secsB init); [apply init_linked|done|eauto]. }
  apply (sections_return secsB stA) in Hclean as [stAB HrunAB]; [|done..].
  exists stAB. split.
  { by rewrite map_app, concat_app, parse_lines_app, HrunA. }
  intros p. rewrite (sections_run secsB stA stAB p HB HrunAB).
  rewrite (sections_run secsB init stB p HB HrunB). simpl.
  destruct (Dict.get p (coverage stA)) as [sa|]; simpl; [|done].
  destruct (decide (p ∈ section_keys secsB)) as [Hin|Hnot]; simpl.
  - reflexivity.
  - rewrite (sections_of_absent p secsB Hnot). simpl. by rewrite bump_zero.
Qed.

Lemma concatenation_adds_counts_witness :
  exists stAB,
    @parse_lines demo_host init
      (concat (map section_lines
         ([("SF:a.c", ["DA:1,1"; "DA:2,0"])] ++ [("SF:b.c", ["DA:1,0"]); ("SF:a.c", ["DA:3,7"])])))
      = Ret stAB /\
    forall p, Dict.get p (coverage stAB)
              = stats_merge
                  (Dict.get p [("a.c", {| total := 2; covered := 1 |})])
                  (Dict.get p [("b.c", {| total := 1; covered := 0 |});
                               ("a.c", {| total := 1; covered := 1 |})]).
Proof.
  apply (@concatenation_adds_counts demo_host
           [("SF:a.c", ["DA:1,1"; "DA:2,0"])]
           [("SF:b.c", ["DA:1,0"]); ("SF:a.c", ["DA:3,7"])]
           {| coverage := [("a.c", {| total := 2; covered := 1 |})];
              current_file := Some "a.c" |}
           {| coverage := [("b.c", {| total := 1; covered := 0 |});
                           ("a.c", {| total := 1; covered := 1 |})];
              current_file := Some "a.c" |}); try reflexivity.
  all: repeat (apply List.Forall_cons;
               [split; [reflexivity|repeat (apply List.Forall_cons; [reflexivity|]);
                                    apply List.Forall_nil]|]).
  all: apply List.Forall_nil.
Defined.

Lemma dict_perm_of_get {V : Type} (d1 d2 : Dict.t V) :
  Dict.wf d1 -> Dict.wf d2 ->
  (forall k, Dict.get k d1 = Dict.get k d2) -> d1 ≡ₚ d2.
Proof.
  intros Hwf1 Hwf2 Hget. apply NoDup_Permutation.
  - by apply (NoDup_fmap_1 fst).
  - by apply (NoDup_fmap_1 fst).
  - intros [k v]. by rewrite <- !dict_get_binding, Hget.
Qed.

(** X7.  The order of the sections does not matter: if an input made
    of sections is read, so is any rearrangement of its sections; the
    two tables hold the same records and the two reports are the
    same. *)
Theorem section_order_irrelevant `{Host} (secs1 secs2 : list section) (st1 : pstate)
    (out : list out_line) :
  secs1 ≡ₚ secs2 ->
  Forall section_ok secs1 ->
  parse_lines init (concat (map section_lines secs1)) = Ret st1 ->
  exists st2,
    parse_lines init (concat (map section_lines secs2)) = Ret st2 /\
    (forall p, Dict.get p (coverage st2) = Dict.get p (coverage st1)) /\
    coverage st2 ≡ₚ coverage st1 /\
    print_report (coverage st2) out = print_report (coverage st1) out.
Proof.
  intros Hperm Hok1 Hrun1.
  assert (Hok2 : Forall section_ok secs2) by by rewrite <- Hperm.
  assert (Hclean : Forall section_clean secs2).
  { rewrite <- Hperm. apply (sections_return secs1 init); [apply init_linked|done|eauto]. }
  apply (sections_return secs2 init) in Hclean as [st2 Hrun2]; [|apply init_linked|done].
  assert (Hget : forall p, Dict.get p (coverage st2) = Dict.get p (coverage st1)).
  { intros p. rewrite (sections_run secs2 init st2 p Hok2 Hrun2).
    rewrite (sections_run secs1 init st1 p Hok1 Hrun1). simpl.
    assert (Hof : sections_of p secs1 ≡ₚ sections_of p secs2).
    { unfold sections_of. by rewrite Hperm. }
    rewrite (zsum_perm _ _ (Permutation_map section_total Hof)).
    rewrite (zsum_perm _ _ (Permutation_map section_covered Hof)).
    destruct (decide (p ∈ section_keys secs2)) as [Hin|Hnot].
    - rewrite decide_True; [done|]. unfold section_keys in *. by rewrite Hperm.
    - rewrite decide_False; [done|]. unfold section_keys in *. by rewrite Hperm. }
  assert (Hwf1 : Dict.wf (coverage st1)).
  { eapply parse_lines_linked in Hrun1 as [? _]; [done|apply init_linked]. }
  assert (Hwf2 : Dict.wf (coverage st2)).
  { eapply parse_lines_linked in Hrun2 as [? _]; [done|apply init_linked]. }
  assert (Hp : coverage st2 ≡ₚ coverage st1) by by apply dict_perm_of_get.
  exists st2. split_and!; [done..|]. by apply print_report_perm.
Qed.

Lemma section_order_irrelevant_witness :
  exists st2,
    @parse_lines demo_host init
      (concat (map section_lines [("SF:b.c", ["DA:1,0"]); ("SF:a.c", ["DA:3,7"; "DA:4,0"])]))
      = Ret st2 /\
    (forall p, Dict.get p (coverage st2)
               = Dict.get p [("a.c", {| total := 2; covered := 1 |});
                             ("b.c", {| total := 1; covered := 0 |})]) /\
    coverage st2 ≡ₚ [("a.c", {| total := 2; covered := 1 |});
                     ("b.c", {| total := 1; covered := 0 |})] /\
    print_report (coverage st2) []
      = print_report [("a.c", {| total := 2; covered := 1 |});
                      ("b.c", {| total := 1; covered := 0 |})] [].
Proof.
  apply (@section_order_irrelevant demo_host
           [("SF:a.c", ["DA:3,7"; "DA:4,0"]); ("SF:b.c", ["DA:1,0"])]
           [("SF:b.c", ["DA:1,0"]); ("SF:a.c", ["DA:3,7"; "DA:4,0"])]
           {| coverage := [("a.c", {| total := 2; covered := 1 |});
                           ("b.c", {| total := 1; covered := 0 |})];
              current_file := Some "b.c" |} []).
  - apply perm_swap.
  - repeat (apply List.Forall_cons;
            [split; [reflexivity|repeat (apply List.Forall_cons; [reflexivity|]);
                                 apply List.Forall_nil]|]).
    apply List.Forall_nil.
  - reflexivity.
Defined.

(** ** The text of a row *)

Lemma spaces_length (n : nat) : String.length (PyNum.spaces n) = n.
Proof. induction n as [|n IH]; simpl; [done|]. by rewrite IH. Qed.

Lemma ljust_length (w : nat) (s : string) :
  String.length (PyNum.ljust w s) = Nat.max w (String.length s).
Proof. unfold PyNum.ljust. rewrite string_length_app, spaces_length. lia. Qed.

Lemma rjust_length (w : nat) (s : string) :
  String.length (PyNum.rjust w s) = Nat.max w (String.length s).
Proof. unfold PyNum.rjust. rewrite string_length_app, spaces_length. lia. Qed.

Lemma string_app_assoc (s t u : string) : (s ++ t) ++ u = s ++ (t ++ u).
Proof.
  induction s as [|c s IH]; [done|]. rewrite !string_app_cons. by rewrite IH.
Qed.

Lemma format_6_2f_length (p : PyNum.num) (ptxt : string) :
  PyNum.format_6_2f p = Ret ptxt -> (6 <= String.length ptxt)%nat.
Proof.
  unfold PyNum.format_6_2f. destruct p as [z|f].
  - destruct (PyNum.float_of_int z); [|done]. intros [= <-]. rewrite rjust_length. lia.
  - intros [= <-]. rewrite rjust_length. lia.
Qed.

(** X10.  A row is padded, never cut: its text begins with the label
    (the path) in full, each column takes its width or the length of
    its content if that is longer, and so the text has 96 characters or
    more, exactly 96 when every content fits its column. *)
Theorem row_never_truncated (label : string) (l c : Z) (p : PyNum.num) (txt : string) :
  render_row label l c p = Ret txt ->
  exists ptxt,
    PyNum.format_6_2f p = Ret ptxt /\
    Py.startswith txt label = true /\
    String.length txt
      = (Nat.max 60 (String.length label)
         + Nat.max 10 (String.length (PyNum.str_of_int l))
         + Nat.max 10 (String.length (PyNum.str_of_int c))
         + Nat.max 6 (String.length ptxt) + 10)%nat /\
    (96 <= String.length txt)%nat.
Proof.
  unfold render_row. destruct (PyNum.format_6_2f p) as [ptxt|] eqn:Hp; [|done].
  simpl. intros [= <-]. exists ptxt. split; [done|].
  pose proof (format_6_2f_length p ptxt Hp) as Hlen.
  split; [|split].
  - unfold PyNum.ljust at 1. rewrite string_app_assoc. apply startswith_app_true.
  - rewrite !string_length_app, !ljust_length. simpl. lia.
  - rewrite !string_length_app, !ljust_length. simpl. lia.
Qed.

Lemma row_never_truncated_witness :
  exists ptxt,
    PyNum.format_6_2f (PyNum.Int 0) = Ret ptxt /\
    Py.startswith
      "a/path/of/more/than/sixty/characters/is/written/out/in/full/here.c | 0          | 0          |   0.00%"
      "a/path/of/more/than/sixty/characters/is/written/out/in/full/here.c" = true /\
    String.length
      "a/path/of/more/than/sixty/characters/is/written/out/in/full/here.c | 0          | 0          |   0.00%"
      = (Nat.max 60 (String.length "a/path/of/more/than/sixty/characters/is/written/out/in/full/here.c")
         + Nat.max 10 (String.length (PyNum.str_of_int 0))
         + Nat.max 10 (String.length (PyNum.str_of_int 0))
         + Nat.max 6 (String.length ptxt) + 10)%nat /\
    (96 <= String.length
             "a/path/of/more/than/sixty/characters/is/written/out/in/full/here.c | 0          | 0          |   0.00%")%nat.
Proof.
  apply (row_never_truncated
           "a/path/of/more/than/sixty/characters/is/written/out/in/full/here.c"
           0 0 (PyNum.Int 0)).
  vm_compute. reflexivity.
Defined.

(** X12.  A file with no covered line shows [  0.00], whatever its
    number of lines: the quotient is the float zero of positive sign,
    which times 100 still is, and for no line at all the integer 0
    prints the same. *)
Theorem uncovered_shows_zero (l : Z) :
  (p ← percentage 0 l; PyNum.format_6_2f p) = Ret "  0.00".
Proof.
  assert (Hp : percentage 0 l = Ret (PyNum.Int 0) \/
               percentage 0 l = Ret (PyNum.Float (S754_zero false))).
  { unfold percentage. destruct (Z.ltb_spec 0 l) as [Hl|Hl]; [right|by left].
    unfold PyNum.truediv. destruct (Z.eqb_spec l 0) as [->|_]; [lia|]. simpl.
    assert ((l <? 0) = false) as -> by lia. reflexivity. }
  destruct Hp as [-> | ->]; reflexivity.
Qed.

(** ** [print_report] on any table *)

Lemma for_each_report_raise (cov : table) (files : list string) : forall acc out out' e,
  Forall (fun f => f ∈ Dict.keys cov) files ->
  for_each (report_file cov) acc files out = (out', Raise e) ->
  e = OverflowError.
Proof.
  induction files as [|f files IH]; intros acc out out' e Hfiles; simpl; [done|].
  apply Forall_cons in Hfiles as [Hf Hfiles]. unfold mbind, io_bind.
  destruct (report_file_cases cov acc f out)
    as [[Hnone _]|[(s & _ & _ & ->)|(s & p & _ & _ & ->)]].
  - apply dict_get_elem_of in Hf as [s Hs]. congruence.
  - by intros [= _ <-].
  - by apply IH.
Qed.

(** X13.  Given any table, [print_report] never raises [KeyError]: the
    paths it looks up are keys of the table itself.  It can still fail
    on a table outside the invariant: with [covered = 10^400] of
    [total = 1] the quotient is too large for a float and the division
    raises [OverflowError], once the header has been printed. *)
Theorem print_report_outcomes (cov : table) (out : list out_line) :
  (print_report cov out).2 <> Raise KeyError /\
  (forall f acc out0,
     f ∈ sorted (Dict.keys cov) -> (report_file cov acc f out0).2 <> Raise KeyError) /\
  print_report [("big.c", {| total := 1; covered := 10 ^ 400 |})] []
    = ([Text header; Text rule], Raise OverflowError).
Proof.
  split; [|split; [|vm_compute; reflexivity]].
  - unfold print_report, mbind, io_bind. rewrite !print_text.
    destruct (for_each (report_file cov) (0, 0) (sorted (Dict.keys cov))
                ((out ++ [Text header]) ++ [Text rule])%list) as [out' [acc|e]] eqn:Hloop.
    + rewrite print_text. unfold lift.
      destruct (percentage_cases acc.2 acc.1) as [[_ Hp]|[(_ & q & _ & Hp)|(_ & _ & Hp)]];
        rewrite Hp; [| |done].
      * by rewrite (proj2 (print_row_percentage "" _ _ _ _ Hp)).
      * by rewrite (proj2 (print_row_percentage "" _ _ _ _ Hp)).
    + simpl. erewrite (for_each_report_raise _ _ _ _ _ e); [done| |done].
      apply Forall_forall. intros f Hf. by rewrite <- (sorted_keys_perm cov).
  - intros f acc out0 Hf. rewrite sorted_keys_perm in Hf.
    apply dict_get_elem_of in Hf as [s Hs].
    destruct (report_file_cases cov acc f out0)
      as [[Hnone _]|[(s' & _ & _ & ->)|(s' & p & _ & _ & ->)]]; [congruence|done..].
Qed.

(** ** [parse_lcov] on any system *)

(** X16.  How [parse_lcov] ends on any system.  An exception of [open],
    of the loop or of the file iterator ends it: [FileNotFoundError],
    wherever it comes from, is answered by the not-found line and
    [sys.exit(1)], any other exception is passed on with nothing
    printed.  A table is returned only when the file opened, every line
    was read and every step of the loop returned; the lines read before
    an error yield no table. *)
Theorem parse_lcov_outcomes `{OS} (path : string) (out : list out_line) :
  let ended (e : exn) : list out_line * result table :=
    match e with
    | FileNotFoundError =>
        ((out ++ [Text ("Error: File " ++ path ++ " not found.")])%list,
         Raise (SystemExit 1))
    | _ => (out, Raise e)
    end in
  parse_lcov path out =
    match os_open path with
    | FileError e => ended e
    | FileLines lines stop =>
        match parse_lines init lines, stop with
        | Raise e, _ => ended e
        | Ret _, Some e => ended e
        | Ret st, None => (out, Ret (coverage st))
        end
    end /\
  (forall out' cov,
     parse_lcov path out = (out', Ret cov) ->
     out' = out /\
     exists lines st,
       os_open path = FileLines lines None /\ parse_lines init lines = Ret st /\
       cov = coverage st) /\
  @parse_lcov cwd_removed "/data/raw.info" [] = ([], Raise UnicodeDecodeError).
Proof.
  intros ended.
  assert (Heq : parse_lcov path out =
    match os_open path with
    | FileError e => ended e
    | FileLines lines stop =>
        match parse_lines init lines, stop with
        | Raise e, _ => ended e
        | Ret _, Some e => ended e
        | Ret st, None => (out, Ret (coverage st))
        end
    end).
  { unfold parse_lcov, try_except_FileNotFoundError.
    destruct (os_open path) as [lines stop|e]; [|by destruct e].
    unfold mbind, io_bind, lift, mret, io_ret.
    destruct (parse_lines init lines) as [st|e]; [|by destruct e].
    destruct stop as [e|]; [by destruct e|done]. }
  split; [done|]. split; [|done].
  intros out' cov. rewrite Heq. subst ended.
  destruct (os_open path) as [lines stop|e]; [|by destruct e].
  destruct (parse_lines init lines) as [st|e] eqn:Hp; [|by destruct e].
  destruct stop as [e|]; [by destruct e|].
  intros [= <- <-]. split; [done|]. by exists lines, st.
Qed.
